(** * OverlayMixin: show/hide, z-index elevation and dismissal listeners

    A shallow embedding of the [MxOverlay] class returned by [OverlayMixin]
    (src/overlay-mixin.ts) and of its revision that listens to the unified
    action events [mousedown], [touchstart] and [scroll] and keeps the
    [_listenersAttached] flag.

    The class lives in a browser.  The parts of the browser the methods
    touch are modelled explicitly and kept apart from the fields of the
    class:
    - the listener lists of the three event targets the class registers on
      ([this], [document.documentElement], [document]);
    - the queue of callbacks handed to [setTimeout];
    - the inline style declaration [this.style.zIndex];
    - the log of the events dispatched on [this];
    - the allocation of function objects (every evaluation of an arrow
      function yields a new object, and listeners are compared by
      identity). *)

From Stdlib Require Import ZArith List Ascii String DecimalString.
From Stdlib Require SpecFloat.
From stdpp Require Import base gmap strings list.

Local Open Scope string_scope.
Local Open Scope list_scope.

(** ** JavaScript values the class computes with *)

Module JS.

(** How a call ends: normally with a value, or by throwing. *)
Inductive JSError : Type := TypeError.

Inductive Completion (A : Type) : Type :=
| Normal (a : A)
| Throw (e : JSError).

Arguments Normal {A} a.
Arguments Throw {A} e.

(** A Number value is an IEEE 754 binary64 value: NaN, one of the two
    infinities, one of the two zeros, or a finite value [(-1)^s * m * 2^e].
    The type, the rounding and the comparison are those of the standard
    library's specification of floating-point arithmetic. *)
Definition JSNumber : Type := SpecFloat.spec_float.

Definition NaN : JSNumber := SpecFloat.S754_nan.

Definition prec : Z := 53.
Definition emax : Z := 1024.

(** The Number value for the quotient [n / d] of two naturals: the binary64
    value nearest to it, ties to the even significand, an infinity beyond
    the largest finite value. *)
Definition round_quotient (n d : Z) : JSNumber :=
  match n, d with
  | Zpos p, Zpos q =>
      SpecFloat.SFdiv prec emax
        (SpecFloat.S754_finite false p 0) (SpecFloat.S754_finite false q 0)
  | _, _ => SpecFloat.S754_zero false
  end.

(** The Number value of an integer, as a numeric literal of the source
    denotes it. *)
Definition Num (z : Z) : JSNumber :=
  if (z <? 0)%Z then SpecFloat.SFopp (round_quotient (- z) 1)
  else round_quotient z 1.

Definition code (c : ascii) : Z := Z.of_nat (nat_of_ascii c).

(** The value of a digit in the given radix: [0-9], [a-f] and [A-F] as far
    as the radix admits them. *)
Definition digit (radix : Z) (c : ascii) : option Z :=
  let n := code c in
  let v :=
    if ((48 <=? n) && (n <=? 57))%Z then Some (n - 48)%Z
    else if ((97 <=? n) && (n <=? 102))%Z then Some (n - 87)%Z
    else if ((65 <=? n) && (n <=? 70))%Z then Some (n - 55)%Z
    else None in
  match v with
  | Some d => if (d <? radix)%Z then Some d else None
  | None => None
  end.

(** The longest run of digits at the start of [s]: the value of [acc]
    followed by these digits, [n] plus their count, and what follows them. *)
Fixpoint digits (radix acc n : Z) (s : string) : Z * Z * string :=
  match s with
  | String c rest =>
      match digit radix c with
      | Some d => digits radix (radix * acc + d)%Z (n + 1)%Z rest
      | None => (acc, n, s)
      end
  | EmptyString => (acc, n, s)
  end.

(** White space and line terminators ([StrWhiteSpaceChar]).  A string holds
    the UTF-8 bytes of its code points: TAB, LF, VT, FF, CR and SP take one
    byte, U+00A0 two, and U+1680, U+2000 to U+200A, U+2028, U+2029, U+202F,
    U+205F, U+3000 and U+FEFF three. *)
Definition white1 (a : Z) : bool :=
  ((9 <=? a) && (a <=? 13) || (a =? 32))%Z.

Definition white2 (a b : Z) : bool := ((a =? 194) && (b =? 160))%Z.

Definition white3 (a b c : Z) : bool :=
  ((a =? 225) && (b =? 154) && (c =? 128)
   || (a =? 226) && (b =? 128)
        && ((128 <=? c) && (c <=? 138) || (c =? 168) || (c =? 169) || (c =? 175))
   || (a =? 226) && (b =? 129) && (c =? 159)
   || (a =? 227) && (b =? 128) && (c =? 128)
   || (a =? 239) && (b =? 187) && (c =? 191))%Z.

(** [s] without the white space it starts with. *)
Fixpoint skip_white (s : string) : string :=
  match s with
  | String a r1 =>
      if white1 (code a) then skip_white r1 else
      match r1 with
      | String b r2 =>
          if white2 (code a) (code b) then skip_white r2 else
          match r2 with
          | String c r3 =>
              if white3 (code a) (code b) (code c) then skip_white r3 else s
          | EmptyString => s
          end
      | EmptyString => s
      end
  | EmptyString => s
  end.

(** [s] without its prefix [p], when it starts with [p]. *)
Fixpoint strip_prefix (p s : string) : option string :=
  match p, s with
  | EmptyString, _ => Some s
  | String a p', String b s' =>
      if Ascii.eqb a b then strip_prefix p' s' else None
  | String _ _, EmptyString => None
  end.

(** [ExponentPart], when [s] starts with one: its value and what follows;
    otherwise 0 and [s]. *)
Definition ExponentPart (s : string) : Z * string :=
  match s with
  | String c rest =>
      if (Ascii.eqb c "e" || Ascii.eqb c "E")%bool then
        let '(negative, body) :=
          match rest with
          | String "-" r => (true, r)
          | String "+" r => (false, r)
          | _ => (false, rest)
          end in
        let '(x, n, r) := digits 10 0 0 body in
        if (0 <? n)%Z then ((if negative then - x else x)%Z, r) else (0%Z, s)
      else (0%Z, s)
  | EmptyString => (0%Z, s)
  end.

(** [StrUnsignedDecimalLiteral]: [Infinity], or digits with an optional
    fraction and an optional exponent, at least one digit before or after
    the point.  The literal [i.f] with exponent [x] has the mathematical
    value [if * 10^(x - |f|)]. *)
Definition StrUnsignedDecimalLiteral (s : string) : option (JSNumber * string) :=
  match strip_prefix "Infinity" s with
  | Some rest => Some (SpecFloat.S754_infinity false, rest)
  | None =>
      let '(i, ni, r1) := digits 10 0 0 s in
      let '(m, nf, r2) :=
        match r1 with
        | String "." r => digits 10 i 0 r
        | _ => (i, 0%Z, r1)
        end in
      if (0 <? ni + nf)%Z then
        let '(x, r3) := ExponentPart r2 in
        let k := (x - nf)%Z in
        Some (if (0 <=? k)%Z then round_quotient (m * 10 ^ k) 1
              else round_quotient m (10 ^ (- k)), r3)
      else None
  end.

Definition StrDecimalLiteral (s : string) : option (JSNumber * string) :=
  match s with
  | String "-" r =>
      match StrUnsignedDecimalLiteral r with
      | Some (a, rest) => Some (SpecFloat.SFopp a, rest)
      | None => None
      end
  | String "+" r => StrUnsignedDecimalLiteral r
  | _ => StrUnsignedDecimalLiteral s
  end.

(** [0x], [0o] and [0b] literals; they take no sign. *)
Definition NonDecimalIntegerLiteral (s : string) : option (JSNumber * string) :=
  match s with
  | String "0" (String c r) =>
      let radix :=
        if (Ascii.eqb c "x" || Ascii.eqb c "X")%bool then Some 16%Z
        else if (Ascii.eqb c "o" || Ascii.eqb c "O")%bool then Some 8%Z
        else if (Ascii.eqb c "b" || Ascii.eqb c "B")%bool then Some 2%Z
        else None in
      match radix with
      | Some b =>
          let '(v, n, rest) := digits b 0 0 r in
          if (0 <? n)%Z then Some (round_quotient v 1, rest) else None
      | None => None
      end
  | _ => None
  end.

Definition StrNumericLiteral (s : string) : option (JSNumber * string) :=
  match NonDecimalIntegerLiteral s with
  | Some r => Some r
  | None => StrDecimalLiteral s
  end.

(** [Number(s)] for a string [s] (StringToNumber): white space around the
    text is dropped; the empty text converts to +0, a numeric literal to the
    Number value nearest to its mathematical value, and every other text
    ([auto], [inherit], a [var()] or [calc()] expression) to NaN.  A literal
    with more than twenty significant digits is rounded from its exact
    value, as the engines do. *)
Definition Number (s : string) : JSNumber :=
  match skip_white s with
  | EmptyString => SpecFloat.S754_zero false
  | t =>
      match StrNumericLiteral t with
      | Some (v, rest) =>
          match skip_white rest with
          | EmptyString => v
          | _ => NaN
          end
      | None => NaN
      end
  end.

(** [a < b]: false as soon as one side is NaN. *)
Definition lt (a b : JSNumber) : bool := SpecFloat.SFltb a b.

(** [n.toString()] for an integer. *)
Definition toString (z : Z) : string := NilZero.string_of_int (Z.to_int z).

(** Truthiness of a string: every string but the empty one. *)
Definition truthy (s : string) : bool := negb (String.eqb s "").

End JS.

(** ** The DOM as the class sees it *)

Module Dom.

(** A node together with its chain of ancestors.  [nid] stands for the
    identity of the object, [id] is the [id] attribute (empty when the node
    has none), [parentNode] is [None] at the top of the chain. *)
#[local] Unset Elimination Schemes.
Inductive Node : Type :=
  mkNode { nid : nat; id : string; parentNode : option Node }.
#[local] Set Elimination Schemes.

(** [a === b] on nodes. *)
Fixpoint same_node (a b : Node) : bool :=
  match a, b with
  | mkNode ka ia pa, mkNode kb ib pb =>
      Nat.eqb ka kb && String.eqb ia ib &&
      match pa, pb with
      | Some p, Some q => same_node p q
      | None, None => true
      | _, _ => false
      end
  end.

(** The proper ancestors of a node, nearest first. *)
Fixpoint ancestors (n : Node) : list Node :=
  match n with
  | mkNode _ _ (Some p) => p :: ancestors p
  | mkNode _ _ None => []
  end.

Fixpoint depth (n : Node) : nat :=
  match n with
  | mkNode _ _ (Some p) => S (depth p)
  | mkNode _ _ None => 0
  end.

(** [e] is a descendant of [c]: [c] is one of the proper ancestors of [e]. *)
Definition descendant_of (e c : Node) : Prop := In c (ancestors e).

(** The two fields of an event the class reads.  [target] is [None] when
    the event has no target, [path] is [None] when the event carries no
    [path] property (it is not a standard property of events).  The entries
    of a path that have no [id] (the document, the window) are nodes with
    the empty [id]: both are falsy in [element.id && ...]. *)
Record Event : Type := mkEvent {
  target : option Node;
  path : option (list Node)
}.

(** A function object: its identity and the arrow function it was made
    from. *)
Inductive Code : Type :=
| PreventClose
| OnCapture
| EscKey.

Record Fn : Type := mkFn { fn_id : nat; fn_code : Code }.

(** An entry of an event target's listener list. *)
Record Listener : Type := mkListener {
  type : string;
  callback : Fn;
  capture : bool
}.

#[export] Instance Code_eq_dec : EqDecision Code.
Proof. solve_decision. Defined.

#[export] Instance Fn_eq_dec : EqDecision Fn.
Proof. solve_decision. Defined.

#[export] Instance Listener_eq_dec : EqDecision Listener.
Proof. solve_decision. Defined.

(** [target.addEventListener(type, callback, capture)]: nothing happens for
    a callback that is [undefined] ([None]) or when the list already holds
    an entry with this type, callback and capture flag; otherwise the entry
    is appended. *)
Definition addEventListener (ty : string) (cb : option Fn) (cap : bool)
    (ls : list Listener) : list Listener :=
  match cb with
  | None => ls
  | Some f =>
      let l := mkListener ty f cap in
      if decide (l ∈ ls) then ls else ls ++ [l]
  end.

(** [target.removeEventListener(type, callback, capture)]: the matching
    entry is dropped when there is one. *)
Definition removeEventListener (ty : string) (cb : option Fn) (cap : bool)
    (ls : list Listener) : list Listener :=
  match cb with
  | None => ls
  | Some f => filter (λ l, l ≠ mkListener ty f cap) ls
  end.

(** The two method names the class selects between, and the call
    [target[name](type, callback, capture)]. *)
Inductive MethodName : Type :=
| addEventListener_name
| removeEventListener_name.

Definition call (name : MethodName) :
    string → option Fn → bool → list Listener → list Listener :=
  match name with
  | addEventListener_name => addEventListener
  | removeEventListener_name => removeEventListener
  end.

(** [style.zIndex = v].  Assigning [undefined] ([None]) hands the text
    "undefined" to the declaration, which is no z-index and is dropped: the
    declaration keeps its value.  A string that was read from [style.zIndex],
    or the decimal text of an integer, is stored as it is. *)
Definition assign_zIndex (v : option string) (current : string) : string :=
  match v with
  | None => current
  | Some z => z
  end.

End Dom.

Import JS.

(** ** The class of src/overlay-mixin.ts *)

Module MxOverlay.

(** The fields of an instance, then the part of the element and of the
    browser its methods read and write. *)
Record State : Type := mkState {
  alwaysOpen : bool;
  opened : bool;
  _overlayToIgnore : gset string;
  _preventCloseOutsideClick : option Dom.Fn;
  _onCaptureHtmlClick : option Dom.Fn;
  _escKeyHandler : option Dom.Fn;
  _initialZIndex : option string;
  (* the element *)
  hidden : bool;
  style_zIndex : string;
  (* listeners registered on this, document.documentElement and document *)
  this_listeners : list Dom.Listener;
  documentElement_listeners : list Dom.Listener;
  document_listeners : list Dom.Listener;
  (* callbacks of handleFeatures waiting in setTimeout, oldest first, each
     with the [show] it closed over *)
  timers : list bool;
  (* identity of the next function object *)
  next_fn : nat;
  (* events dispatched on this, oldest first *)
  dispatched : list string
}.

Definition _overlayMinZIndex : Z := 1000.
Definition _handleFeaturesTimeoutMs : Z := 10.

(** A new instance: the field initialisers of the class, on an element whose
    inline z-index is [z] and whose [hidden] property is [h]. *)
Definition init (z : string) (h : bool) : State :=
  {| alwaysOpen := false; opened := false; _overlayToIgnore := ∅;
     _preventCloseOutsideClick := None; _onCaptureHtmlClick := None;
     _escKeyHandler := None; _initialZIndex := None;
     hidden := h; style_zIndex := z;
     this_listeners := []; documentElement_listeners := [];
     document_listeners := []; timers := []; next_fn := 0;
     dispatched := [] |}.

(** *** Field updates *)

Definition set_alwaysOpen (b : bool) (s : State) : State :=
  mkState b (opened s) (_overlayToIgnore s) (_preventCloseOutsideClick s)
    (_onCaptureHtmlClick s) (_escKeyHandler s) (_initialZIndex s) (hidden s)
    (style_zIndex s) (this_listeners s) (documentElement_listeners s)
    (document_listeners s) (timers s) (next_fn s) (dispatched s).

Definition set_visibility (h o : bool) (s : State) : State :=
  mkState (alwaysOpen s) o (_overlayToIgnore s) (_preventCloseOutsideClick s)
    (_onCaptureHtmlClick s) (_escKeyHandler s) (_initialZIndex s) h
    (style_zIndex s) (this_listeners s) (documentElement_listeners s)
    (document_listeners s) (timers s) (next_fn s) (dispatched s).

Definition set_overlayToIgnore (X : gset string) (s : State) : State :=
  mkState (alwaysOpen s) (opened s) X (_preventCloseOutsideClick s)
    (_onCaptureHtmlClick s) (_escKeyHandler s) (_initialZIndex s) (hidden s)
    (style_zIndex s) (this_listeners s) (documentElement_listeners s)
    (document_listeners s) (timers s) (next_fn s) (dispatched s).

Definition set_click_handlers (f g : option Dom.Fn) (n : nat) (s : State) : State :=
  mkState (alwaysOpen s) (opened s) (_overlayToIgnore s) f g
    (_escKeyHandler s) (_initialZIndex s) (hidden s)
    (style_zIndex s) (this_listeners s) (documentElement_listeners s)
    (document_listeners s) (timers s) n (dispatched s).

Definition set_escKeyHandler (f : option Dom.Fn) (n : nat) (s : State) : State :=
  mkState (alwaysOpen s) (opened s) (_overlayToIgnore s)
    (_preventCloseOutsideClick s) (_onCaptureHtmlClick s) f
    (_initialZIndex s) (hidden s)
    (style_zIndex s) (this_listeners s) (documentElement_listeners s)
    (document_listeners s) (timers s) n (dispatched s).

Definition set_initialZIndex (v : option string) (s : State) : State :=
  mkState (alwaysOpen s) (opened s) (_overlayToIgnore s)
    (_preventCloseOutsideClick s) (_onCaptureHtmlClick s) (_escKeyHandler s)
    v (hidden s)
    (style_zIndex s) (this_listeners s) (documentElement_listeners s)
    (document_listeners s) (timers s) (next_fn s) (dispatched s).

Definition set_style_zIndex (z : string) (s : State) : State :=
  mkState (alwaysOpen s) (opened s) (_overlayToIgnore s)
    (_preventCloseOutsideClick s) (_onCaptureHtmlClick s) (_escKeyHandler s)
    (_initialZIndex s) (hidden s)
    z (this_listeners s) (documentElement_listeners s)
    (document_listeners s) (timers s) (next_fn s) (dispatched s).

Definition set_this_listeners (ls : list Dom.Listener) (s : State) : State :=
  mkState (alwaysOpen s) (opened s) (_overlayToIgnore s)
    (_preventCloseOutsideClick s) (_onCaptureHtmlClick s) (_escKeyHandler s)
    (_initialZIndex s) (hidden s)
    (style_zIndex s) ls (documentElement_listeners s)
    (document_listeners s) (timers s) (next_fn s) (dispatched s).

Definition set_documentElement_listeners (ls : list Dom.Listener) (s : State) : State :=
  mkState (alwaysOpen s) (opened s) (_overlayToIgnore s)
    (_preventCloseOutsideClick s) (_onCaptureHtmlClick s) (_escKeyHandler s)
    (_initialZIndex s) (hidden s)
    (style_zIndex s) (this_listeners s) ls
    (document_listeners s) (timers s) (next_fn s) (dispatched s).

Definition set_document_listeners (ls : list Dom.Listener) (s : State) : State :=
  mkState (alwaysOpen s) (opened s) (_overlayToIgnore s)
    (_preventCloseOutsideClick s) (_onCaptureHtmlClick s) (_escKeyHandler s)
    (_initialZIndex s) (hidden s)
    (style_zIndex s) (this_listeners s) (documentElement_listeners s)
    ls (timers s) (next_fn s) (dispatched s).

Definition set_timers (q : list bool) (s : State) : State :=
  mkState (alwaysOpen s) (opened s) (_overlayToIgnore s)
    (_preventCloseOutsideClick s) (_onCaptureHtmlClick s) (_escKeyHandler s)
    (_initialZIndex s) (hidden s)
    (style_zIndex s) (this_listeners s) (documentElement_listeners s)
    (document_listeners s) q (next_fn s) (dispatched s).

(** [this.dispatchEvent(new CustomEvent(name, ...))]: the event is recorded.
    Whether a listener of the host cancels it is an input of [show] and
    [hide]. *)
Definition dispatchEvent (name : string) (s : State) : State :=
  mkState (alwaysOpen s) (opened s) (_overlayToIgnore s)
    (_preventCloseOutsideClick s) (_onCaptureHtmlClick s) (_escKeyHandler s)
    (_initialZIndex s) (hidden s)
    (style_zIndex s) (this_listeners s) (documentElement_listeners s)
    (document_listeners s) (timers s) (next_fn s) (dispatched s ++ [name]).

(** [setTimeout(callback, _handleFeaturesTimeoutMs)] for the callback of
    [handleFeatures]: all of them wait the same delay, so they run in the
    order they were queued. *)
Definition setTimeout (show : bool) (s : State) : State :=
  set_timers (timers s ++ [show]) s.

(** *** Methods *)

Definition showItem (s : State) : State := set_visibility false true s.

Definition hideItem (s : State) : State := set_visibility true false s.

Definition handleZIndex (show : bool) (s : State) : State :=
  if show then
    let initial := style_zIndex s in
    let s1 := set_initialZIndex (Some initial) s in
    if lt (Number initial) (Num _overlayMinZIndex) then
      set_style_zIndex
        (Dom.assign_zIndex (Some (toString _overlayMinZIndex)) (style_zIndex s1)) s1
    else s1
  else
    set_style_zIndex (Dom.assign_zIndex (_initialZIndex s) (style_zIndex s)) s.

Definition handleHidesOnOutsideEsc (show : bool) (s : State) : State :=
  if show then
    let f := Dom.mkFn (next_fn s) Dom.EscKey in
    let s1 := set_escKeyHandler (Some f) (S (next_fn s)) s in
    set_document_listeners
      (Dom.addEventListener "keyup" (_escKeyHandler s1) false (document_listeners s1)) s1
  else
    set_document_listeners
      (Dom.removeEventListener "keyup" (_escKeyHandler s) false (document_listeners s)) s.

Definition handleHidesOnOutsideClick (show : bool) (s : State) : State :=
  let addOrRemoveListener :=
    if show then Dom.addEventListener_name else Dom.removeEventListener_name in
  let s1 :=
    if show then
      let f := Dom.mkFn (next_fn s) Dom.PreventClose in
      let g := Dom.mkFn (S (next_fn s)) Dom.OnCapture in
      set_click_handlers (Some f) (Some g) (S (S (next_fn s))) s
    else s in
  let s2 := set_this_listeners
    (Dom.call addOrRemoveListener "click" (_preventCloseOutsideClick s1) true
       (this_listeners s1)) s1 in
  let s3 := set_documentElement_listeners
    (Dom.call addOrRemoveListener "click" (_onCaptureHtmlClick s2) true
       (documentElement_listeners s2)) s2 in
  let s4 := set_this_listeners
    (Dom.call addOrRemoveListener "scroll" (_preventCloseOutsideClick s3) true
       (this_listeners s3)) s3 in
  set_documentElement_listeners
    (Dom.call addOrRemoveListener "scroll" (_onCaptureHtmlClick s4) true
       (documentElement_listeners s4)) s4.

(** The callback [handleFeatures] hands to [setTimeout]. *)
Definition features_callback (show : bool) (s : State) : State :=
  handleHidesOnOutsideClick show (handleHidesOnOutsideEsc show s).

Definition handleFeatures (show : bool) (s : State) : State :=
  setTimeout show (handleZIndex show s).

(** [show()]; [defaultPrevented] tells whether a listener cancelled the
    [mx-overlay-before-shown] event. *)
Definition show (defaultPrevented : bool) (s : State) : State :=
  let s0 := dispatchEvent "mx-overlay-before-shown" s in
  if negb defaultPrevented then
    let s1 := showItem s0 in
    let s2 := handleFeatures (negb (alwaysOpen s1)) s1 in
    dispatchEvent "mx-overlay-shown" s2
  else s0.

(** [hide()]; [defaultPrevented] tells whether a listener cancelled the
    [overlay-before-hidden] event. *)
Definition hide (defaultPrevented : bool) (s : State) : State :=
  let s0 := dispatchEvent "overlay-before-hidden" s in
  if negb defaultPrevented then
    let s1 := hideItem s0 in
    let s2 := handleFeatures false s1 in
    dispatchEvent "overlay-hidden" s2
  else s0.

Definition overlayToIgnore (elementIds : list string) (s : State) : State :=
  set_overlayToIgnore
    (fold_left (λ X id, if truthy id then {[id]} ∪ X else X) elementIds
       (_overlayToIgnore s)) s.

Definition disconnectedCallback (s : State) : State := handleFeatures false s.

(** The oldest waiting callback runs. *)
Definition tick (s : State) : State :=
  match timers s with
  | [] => s
  | show :: rest => features_callback show (set_timers rest s)
  end.

(** Every waiting callback runs, oldest first. *)
Definition run_timers (s : State) : State := Nat.iter (length (timers s)) tick s.

(** The while loop of [isElementContained], from [node] upwards. *)
Fixpoint walk_up (parent node : Dom.Node) : bool :=
  if Dom.same_node node parent then true
  else
    match node with
    | Dom.mkNode _ _ (Some up) => walk_up parent up
    | Dom.mkNode _ _ None => false
    end.

Definition isElementContained (parent : Dom.Node) (event : Dom.Event) : bool :=
  match Dom.target event with
  | None => false
  | Some t =>
      match Dom.parentNode t with
      | None => false
      | Some node => walk_up parent node
      end
  end.

(** The [for ... of] loop over the entries of [event.path]: [true] when it
    returns from inside the loop. *)
Fixpoint scan_path (ignore : gset string) (path : list Dom.Node) : bool :=
  match path with
  | [] => false
  | element :: rest =>
      if truthy (Dom.id element) && bool_decide (Dom.id element ∈ ignore) then true
      else scan_path ignore rest
  end.

(** [isElementAllowed(parent, event)].  Iterating over an absent
    [event.path] throws a [TypeError]. *)
Definition isElementAllowed (s : State) (parent : Dom.Node) (event : Dom.Event)
    : Completion bool :=
  if bool_decide (0 < size (_overlayToIgnore s)) then
    match Dom.path event with
    | None => Throw TypeError
    | Some path =>
        if scan_path (_overlayToIgnore s) path then Normal true
        else Normal (isElementContained parent event)
    end
  else Normal (isElementContained parent event).

(** *** What the host and the browser can do to an instance *)

Inductive Action : Type :=
| Show (defaultPrevented : bool)
| Hide (defaultPrevented : bool)
| OverlayToIgnore (elementIds : list string)
| DisconnectedCallback
| Tick
| SetAlwaysOpen (b : bool)
| SetStyleZIndex (z : string).

Definition exec (a : Action) (s : State) : State :=
  match a with
  | Show c => show c s
  | Hide c => hide c s
  | OverlayToIgnore ids => overlayToIgnore ids s
  | DisconnectedCallback => disconnectedCallback s
  | Tick => tick s
  | SetAlwaysOpen b => set_alwaysOpen b s
  | SetStyleZIndex z => set_style_zIndex z s
  end.

Definition run (acts : list Action) (s : State) : State :=
  fold_left (λ st a, exec a st) acts s.

Definition reachable (s : State) : Prop :=
  ∃ z h acts, s = run acts (init z h).

(** What an observer of the page sees of an instance: the listeners on the
    three targets, the z-index and the [opened] flag. *)
Definition observable (s : State) :
    list Dom.Listener * list Dom.Listener * list Dom.Listener * string * bool :=
  (this_listeners s, documentElement_listeners s, document_listeners s,
   style_zIndex s, opened s).

(** None of the handlers the fields hold is registered any more. *)
Definition current_handlers_detached (s : State) : Prop :=
  (∀ f, _escKeyHandler s = Some f →
        Dom.mkListener "keyup" f false ∉ document_listeners s) ∧
  (∀ f, _preventCloseOutsideClick s = Some f →
        (Dom.mkListener "click" f true ∉ this_listeners s) ∧
        (Dom.mkListener "scroll" f true ∉ this_listeners s)) ∧
  (∀ g, _onCaptureHtmlClick s = Some g →
        (Dom.mkListener "click" g true ∉ documentElement_listeners s) ∧
        (Dom.mkListener "scroll" g true ∉ documentElement_listeners s)).

(** No feature was ever armed and none is waiting to be. *)
Definition never_armed (s : State) : Prop :=
  _initialZIndex s = None ∧ _escKeyHandler s = None ∧
  _preventCloseOutsideClick s = None ∧ _onCaptureHtmlClick s = None ∧
  timers s = [].

End MxOverlay.

(** ** The revision with the unified action events and [_listenersAttached] *)

Module MxOverlayActionEvents.

Record State : Type := mkState {
  alwaysOpen : bool;
  opened : bool;
  _overlayToIgnore : gset string;
  _preventCloseOnOutsideEvent : option Dom.Fn;
  _onCaptureOverlayActionEvent : option Dom.Fn;
  _escKeyHandler : option Dom.Fn;
  _initialZIndex : option string;
  _listenersAttached : bool;
  (* the element *)
  hidden : bool;
  style_zIndex : string;
  (* listeners registered on this, document.documentElement and document *)
  this_listeners : list Dom.Listener;
  documentElement_listeners : list Dom.Listener;
  document_listeners : list Dom.Listener;
  (* callbacks of handleFeatures waiting in setTimeout, oldest first *)
  timers : list bool;
  next_fn : nat;
  dispatched : list string
}.

Definition _overlayActionEvents : list string :=
  ["mousedown"; "touchstart"; "scroll"].
Definition _overlayMinZIndex : Z := 1000.
Definition _handleFeaturesTimeoutMs : Z := 10.

Definition init (z : string) (h : bool) : State :=
  {| alwaysOpen := false; opened := false; _overlayToIgnore := ∅;
     _preventCloseOnOutsideEvent := None; _onCaptureOverlayActionEvent := None;
     _escKeyHandler := None; _initialZIndex := None;
     _listenersAttached := false;
     hidden := h; style_zIndex := z;
     this_listeners := []; documentElement_listeners := [];
     document_listeners := []; timers := []; next_fn := 0;
     dispatched := [] |}.

(** *** Field updates *)

Definition set_alwaysOpen (b : bool) (s : State) : State :=
  mkState b (opened s) (_overlayToIgnore s) (_preventCloseOnOutsideEvent s)
    (_onCaptureOverlayActionEvent s) (_escKeyHandler s) (_initialZIndex s)
    (_listenersAttached s) (hidden s) (style_zIndex s) (this_listeners s)
    (documentElement_listeners s) (document_listeners s) (timers s)
    (next_fn s) (dispatched s).

Definition set_visibility (h o : bool) (s : State) : State :=
  mkState (alwaysOpen s) o (_overlayToIgnore s) (_preventCloseOnOutsideEvent s)
    (_onCaptureOverlayActionEvent s) (_escKeyHandler s) (_initialZIndex s)
    (_listenersAttached s) h (style_zIndex s) (this_listeners s)
    (documentElement_listeners s) (document_listeners s) (timers s)
    (next_fn s) (dispatched s).

Definition set_overlayToIgnore (X : gset string) (s : State) : State :=
  mkState (alwaysOpen s) (opened s) X (_preventCloseOnOutsideEvent s)
    (_onCaptureOverlayActionEvent s) (_escKeyHandler s) (_initialZIndex s)
    (_listenersAttached s) (hidden s) (style_zIndex s) (this_listeners s)
    (documentElement_listeners s) (document_listeners s) (timers s)
    (next_fn s) (dispatched s).

Definition set_action_handlers (f g : option Dom.Fn) (n : nat) (s : State) : State :=
  mkState (alwaysOpen s) (opened s) (_overlayToIgnore s) f g
    (_escKeyHandler s) (_initialZIndex s)
    (_listenersAttached s) (hidden s) (style_zIndex s) (this_listeners s)
    (documentElement_listeners s) (document_listeners s) (timers s)
    n (dispatched s).

Definition set_escKeyHandler (f : option Dom.Fn) (n : nat) (s : State) : State :=
  mkState (alwaysOpen s) (opened s) (_overlayToIgnore s)
    (_preventCloseOnOutsideEvent s) (_onCaptureOverlayActionEvent s) f
    (_initialZIndex s)
    (_listenersAttached s) (hidden s) (style_zIndex s) (this_listeners s)
    (documentElement_listeners s) (document_listeners s) (timers s)
    n (dispatched s).

Definition set_initialZIndex (v : option string) (s : State) : State :=
  mkState (alwaysOpen s) (opened s) (_overlayToIgnore s)
    (_preventCloseOnOutsideEvent s) (_onCaptureOverlayActionEvent s)
    (_escKeyHandler s) v
    (_listenersAttached s) (hidden s) (style_zIndex s) (this_listeners s)
    (documentElement_listeners s) (document_listeners s) (timers s)
    (next_fn s) (dispatched s).

Definition set_listenersAttached (b : bool) (s : State) : State :=
  mkState (alwaysOpen s) (opened s) (_overlayToIgnore s)
    (_preventCloseOnOutsideEvent s) (_onCaptureOverlayActionEvent s)
    (_escKeyHandler s) (_initialZIndex s)
    b (hidden s) (style_zIndex s) (this_listeners s)
    (documentElement_listeners s) (document_listeners s) (timers s)
    (next_fn s) (dispatched s).

Definition set_style_zIndex (z : string) (s : State) : State :=
  mkState (alwaysOpen s) (opened s) (_overlayToIgnore s)
    (_preventCloseOnOutsideEvent s) (_onCaptureOverlayActionEvent s)
    (_escKeyHandler s) (_initialZIndex s)
    (_listenersAttached s) (hidden s) z (this_listeners s)
    (documentElement_listeners s) (document_listeners s) (timers s)
    (next_fn s) (dispatched s).

Definition set_this_listeners (ls : list Dom.Listener) (s : State) : State :=
  mkState (alwaysOpen s) (opened s) (_overlayToIgnore s)
    (_preventCloseOnOutsideEvent s) (_onCaptureOverlayActionEvent s)
    (_escKeyHandler s) (_initialZIndex s)
    (_listenersAttached s) (hidden s) (style_zIndex s) ls
    (documentElement_listeners s) (document_listeners s) (timers s)
    (next_fn s) (dispatched s).

Definition set_documentElement_listeners (ls : list Dom.Listener) (s : State) : State :=
  mkState (alwaysOpen s) (opened s) (_overlayToIgnore s)
    (_preventCloseOnOutsideEvent s) (_onCaptureOverlayActionEvent s)
    (_escKeyHandler s) (_initialZIndex s)
    (_listenersAttached s) (hidden s) (style_zIndex s) (this_listeners s)
    ls (document_listeners s) (timers s)
    (next_fn s) (dispatched s).

Definition set_document_listeners (ls : list Dom.Listener) (s : State) : State :=
  mkState (alwaysOpen s) (opened s) (_overlayToIgnore s)
    (_preventCloseOnOutsideEvent s) (_onCaptureOverlayActionEvent s)
    (_escKeyHandler s) (_initialZIndex s)
    (_listenersAttached s) (hidden s) (style_zIndex s) (this_listeners s)
    (documentElement_listeners s) ls (timers s)
    (next_fn s) (dispatched s).

Definition set_timers (q : list bool) (s : State) : State :=
  mkState (alwaysOpen s) (opened s) (_overlayToIgnore s)
    (_preventCloseOnOutsideEvent s) (_onCaptureOverlayActionEvent s)
    (_escKeyHandler s) (_initialZIndex s)
    (_listenersAttached s) (hidden s) (style_zIndex s) (this_listeners s)
    (documentElement_listeners s) (document_listeners s) q
    (next_fn s) (dispatched s).

Definition dispatchEvent (name : string) (s : State) : State :=
  mkState (alwaysOpen s) (opened s) (_overlayToIgnore s)
    (_preventCloseOnOutsideEvent s) (_onCaptureOverlayActionEvent s)
    (_escKeyHandler s) (_initialZIndex s)
    (_listenersAttached s) (hidden s) (style_zIndex s) (this_listeners s)
    (documentElement_listeners s) (document_listeners s) (timers s)
    (next_fn s) (dispatched s ++ [name]).

Definition setTimeout (show : bool) (s : State) : State :=
  set_timers (timers s ++ [show]) s.

(** *** Methods *)

Definition showItem (s : State) : State := set_visibility false true s.

Definition hideItem (s : State) : State := set_visibility true false s.

Definition handleZIndex (show : bool) (s : State) : State :=
  if show then
    let initial := style_zIndex s in
    let s1 := set_initialZIndex (Some initial) s in
    if lt (Number initial) (Num _overlayMinZIndex) then
      set_style_zIndex
        (Dom.assign_zIndex (Some (toString _overlayMinZIndex)) (style_zIndex s1)) s1
    else s1
  else
    set_style_zIndex (Dom.assign_zIndex (_initialZIndex s) (style_zIndex s)) s.

Definition handleHidesOnOutsideEsc (show : bool) (s : State) : State :=
  if show then
    let f := Dom.mkFn (next_fn s) Dom.EscKey in
    let s1 := set_escKeyHandler (Some f) (S (next_fn s)) s in
    set_document_listeners
      (Dom.addEventListener "keyup" (_escKeyHandler s1) false (document_listeners s1)) s1
  else
    set_document_listeners
      (Dom.removeEventListener "keyup" (_escKeyHandler s) false (document_listeners s)) s.

(** The body of the [forEach] callback of [updateActionEventListeners]. *)
Definition updateActionEventListener (addOrRemoveListener : Dom.MethodName)
    (s : State) (eventName : string) : State :=
  let s1 := set_this_listeners
    (Dom.call addOrRemoveListener eventName (_preventCloseOnOutsideEvent s) true
       (this_listeners s)) s in
  set_documentElement_listeners
    (Dom.call addOrRemoveListener eventName (_onCaptureOverlayActionEvent s1) true
       (documentElement_listeners s1)) s1.

Definition updateActionEventListeners (addOrRemoveListener : Dom.MethodName)
    (s : State) : State :=
  fold_left (updateActionEventListener addOrRemoveListener) _overlayActionEvents s.

Definition handleOverlayListeners (show : bool) (s : State) : State :=
  let addOrRemoveListener :=
    if show then Dom.addEventListener_name else Dom.removeEventListener_name in
  set_listenersAttached show (updateActionEventListeners addOrRemoveListener s).

Definition handleHidesOnOutsideClick (show : bool) (s : State) : State :=
  if show then
    if _listenersAttached s then s
    else
      let f := Dom.mkFn (next_fn s) Dom.PreventClose in
      let g := Dom.mkFn (S (next_fn s)) Dom.OnCapture in
      handleOverlayListeners show
        (set_action_handlers (Some f) (Some g) (S (S (next_fn s))) s)
  else handleOverlayListeners show s.

Definition features_callback (show : bool) (s : State) : State :=
  handleHidesOnOutsideClick show (handleHidesOnOutsideEsc show s).

Definition handleFeatures (show : bool) (s : State) : State :=
  setTimeout show (handleZIndex show s).

Definition show (defaultPrevented : bool) (s : State) : State :=
  let s0 := dispatchEvent "mx-overlay-before-shown" s in
  if negb defaultPrevented then
    let s1 := showItem s0 in
    let s2 := handleFeatures (negb (alwaysOpen s1)) s1 in
    dispatchEvent "mx-overlay-shown" s2
  else s0.

Definition hide (defaultPrevented : bool) (s : State) : State :=
  let s0 := dispatchEvent "overlay-before-hidden" s in
  if negb defaultPrevented then
    let s1 := hideItem s0 in
    let s2 := handleFeatures false s1 in
    dispatchEvent "overlay-hidden" s2
  else s0.

Definition overlayToIgnore (elementIds : list string) (s : State) : State :=
  set_overlayToIgnore
    (fold_left (λ X id, if truthy id then {[id]} ∪ X else X) elementIds
       (_overlayToIgnore s)) s.

Definition disconnectedCallback (s : State) : State := handleFeatures false s.

Definition tick (s : State) : State :=
  match timers s with
  | [] => s
  | show :: rest => features_callback show (set_timers rest s)
  end.

Definition run_timers (s : State) : State := Nat.iter (length (timers s)) tick s.

(** *** What the host and the browser can do to an instance *)

Inductive Action : Type :=
| Show (defaultPrevented : bool)
| Hide (defaultPrevented : bool)
| OverlayToIgnore (elementIds : list string)
| DisconnectedCallback
| Tick
| SetAlwaysOpen (b : bool)
| SetStyleZIndex (z : string).

Definition exec (a : Action) (s : State) : State :=
  match a with
  | Show c => show c s
  | Hide c => hide c s
  | OverlayToIgnore ids => overlayToIgnore ids s
  | DisconnectedCallback => disconnectedCallback s
  | Tick => tick s
  | SetAlwaysOpen b => set_alwaysOpen b s
  | SetStyleZIndex z => set_style_zIndex z s
  end.

Definition run (acts : list Action) (s : State) : State :=
  fold_left (λ st a, exec a st) acts s.

Definition reachable (s : State) : Prop :=
  ∃ z h acts, s = run acts (init z h).

(** The listeners that detect interactions outside the overlay: those on
    [this] and on [document.documentElement]. *)
Definition outside_listeners (s : State) : list Dom.Listener :=
  this_listeners s ++ documentElement_listeners s.

(** The handler in [_escKeyHandler] is registered for [keyup] on the
    document. *)
Definition escape_listener_attached (s : State) : Prop :=
  ∃ f, _escKeyHandler s = Some f ∧
       Dom.mkListener "keyup" f false ∈ document_listeners s.

(** The listeners for the action events with callback [f]. *)
Definition action_listeners (f : Dom.Fn) : list Dom.Listener :=
  map (λ eventName, Dom.mkListener eventName f true) _overlayActionEvents.

(** [_listenersAttached] tells what the two listener lists hold. *)
Definition listeners_inv (s : State) : Prop :=
  if _listenersAttached s then
    ∃ f g, _preventCloseOnOutsideEvent s = Some f ∧
           _onCaptureOverlayActionEvent s = Some g ∧
           this_listeners s = action_listeners f ∧
           documentElement_listeners s = action_listeners g
  else this_listeners s = [] ∧ documentElement_listeners s = [].

(** The two handlers are the closures [handleHidesOnOutsideClick] makes for
    them. *)
Definition handlers_coded (s : State) : Prop :=
  (∀ f, _preventCloseOnOutsideEvent s = Some f →
        Dom.fn_code f = Dom.PreventClose) ∧
  (∀ g, _onCaptureOverlayActionEvent s = Some g →
        Dom.fn_code g = Dom.OnCapture).

(** The outside-interaction listeners are attached: [this] holds exactly
    the capturing [mousedown], [touchstart] and [scroll] listeners that call
    the current [_preventCloseOnOutsideEvent], and
    [document.documentElement] exactly those that call the current
    [_onCaptureOverlayActionEvent]. *)
Definition outside_listeners_attached (s : State) : Prop :=
  ∃ f g, _preventCloseOnOutsideEvent s = Some f ∧
         Dom.fn_code f = Dom.PreventClose ∧
         _onCaptureOverlayActionEvent s = Some g ∧
         Dom.fn_code g = Dom.OnCapture ∧
         this_listeners s = action_listeners f ∧
         documentElement_listeners s = action_listeners g.

(** No listener is registered on [this] or on [document.documentElement]. *)
Definition outside_listeners_detached (s : State) : Prop :=
  this_listeners s = [] ∧ documentElement_listeners s = [].

End MxOverlayActionEvents.

(** ** src/overlay-mixin.ts: what the listener lists and the log look like *)

Module MxOverlayShape.
Import MxOverlay.

(** [handleHidesOnOutsideClick] makes [_preventCloseOutsideClick] and
    [_onCaptureHtmlClick] together and registers them for the same event
    types, the first on [this], the second on [document.documentElement].
    [partner] maps a listener of the first to the listener of the second
    that was registered with it. *)
Definition partner (l : Dom.Listener) : Dom.Listener :=
  Dom.mkListener (Dom.type l)
    (Dom.mkFn (S (Dom.fn_id (Dom.callback l))) Dom.OnCapture) true.

(** A listener as the class registers it on [this]; [next] bounds the
    function objects made so far. *)
Definition inside_listener (next : nat) (l : Dom.Listener) : Prop :=
  (Dom.type l = "click" ∨ Dom.type l = "scroll") ∧
  Dom.capture l = true ∧
  Dom.fn_code (Dom.callback l) = Dom.PreventClose ∧
  S (Dom.fn_id (Dom.callback l)) < next.

(** A listener as the class registers it on [document]. *)
Definition escape_listener (next : nat) (l : Dom.Listener) : Prop :=
  Dom.type l = "keyup" ∧
  Dom.capture l = false ∧
  Dom.fn_code (Dom.callback l) = Dom.EscKey ∧
  Dom.fn_id (Dom.callback l) < next.

(** The two click handlers in the fields were made by one call. *)
Definition handlers_paired (s : State) : Prop :=
  (_preventCloseOutsideClick s = None ∧ _onCaptureHtmlClick s = None) ∨
  ∃ n, _preventCloseOutsideClick s = Some (Dom.mkFn n Dom.PreventClose) ∧
       _onCaptureHtmlClick s = Some (Dom.mkFn (S n) Dom.OnCapture) ∧
       S n < next_fn s.

Definition escape_handler_known (s : State) : Prop :=
  _escKeyHandler s = None ∨
  ∃ n, _escKeyHandler s = Some (Dom.mkFn n Dom.EscKey) ∧ n < next_fn s.

Definition listeners_shape (s : State) : Prop :=
  Forall (inside_listener (next_fn s)) (this_listeners s) ∧
  documentElement_listeners s = map partner (this_listeners s) ∧
  Forall (escape_listener (next_fn s)) (document_listeners s) ∧
  handlers_paired s ∧
  escape_handler_known s.

(** The last of the two completion events in a log: [Some true] for
    [mx-overlay-shown], [Some false] for [overlay-hidden], [None] when the
    log holds neither. *)
Definition last_completion (log : list string) : option bool :=
  fold_left
    (λ acc name,
       if String.eqb name "mx-overlay-shown" then Some true
       else if String.eqb name "overlay-hidden" then Some false
       else acc)
    log None.

(** The listeners one run of the set-up callback registers, from the
    function objects it makes out of [next_fn = n]. *)
Definition armed_on_document (n : nat) : list Dom.Listener :=
  [Dom.mkListener "keyup" (Dom.mkFn n Dom.EscKey) false].

Definition armed_on_this (n : nat) : list Dom.Listener :=
  [Dom.mkListener "click" (Dom.mkFn (S n) Dom.PreventClose) true;
   Dom.mkListener "scroll" (Dom.mkFn (S n) Dom.PreventClose) true].

Definition armed_on_documentElement (n : nat) : list Dom.Listener :=
  [Dom.mkListener "click" (Dom.mkFn (S (S n)) Dom.OnCapture) true;
   Dom.mkListener "scroll" (Dom.mkFn (S (S n)) Dom.OnCapture) true].

End MxOverlayShape.

(** ** src/overlay-mixin.ts: the handlers and the events that reach them *)

Module MxOverlayPage.
Import MxOverlay.

(** Where the instance sits in the page: the element itself ([this]), the
    root element and the document.  The page is one tree of nodes; shadow
    trees are not modelled. *)
Record Document : Type := mkDocument {
  this_element : Dom.Node;
  documentElement : Dom.Node;
  document : Dom.Node
}.

(** The callbacks the handlers hand to [setTimeout] without a delay.
    [scope] names the [wasClickInside] variable the callback closes over. *)
Inductive Timeout : Type :=
| ResetWasClickInside (scope : nat)
| HideIfOutside (scope : nat) (e : Dom.Event).

(** An instance together with what its handlers keep outside its fields:
    the [wasClickInside] variables that are true, the callbacks waiting in
    [setTimeout] without a delay (oldest first) and the errors thrown by
    such callbacks. *)
Record Page : Type := mkPage {
  host : State;
  wasClickInside : gset nat;
  timeouts : list Timeout;
  uncaught : list JSError
}.

(** The [wasClickInside] variable of a handler.  One call of
    [handleHidesOnOutsideClick] declares the variable and makes the two
    functions that close over it, numbered [n] and [n + 1]; [n] names the
    variable. *)
Definition scope_of (f : Dom.Fn) : nat :=
  match Dom.fn_code f with
  | Dom.OnCapture => pred (Dom.fn_id f)
  | _ => Dom.fn_id f
  end.

(** An event on its way through the page: its type, the fields
    [isElementAllowed] reads, its [key] ([None] when the event has none)
    and whether it bubbles. *)
Record Dispatch : Type := mkDispatch {
  event_type : string;
  event : Dom.Event;
  key : option string;
  bubbles : bool
}.

(** [() => { wasClickInside = true; setTimeout(() => { wasClickInside = false; }); }] *)
Definition preventCloseOutsideClick (f : Dom.Fn) (p : Page) : Page :=
  mkPage (host p) ({[scope_of f]} ∪ wasClickInside p)
    (timeouts p ++ [ResetWasClickInside (scope_of f)]) (uncaught p).

(** [(e) => { setTimeout(() => { ... }); }] *)
Definition onCaptureHtmlClick (f : Dom.Fn) (e : Dom.Event) (p : Page) : Page :=
  mkPage (host p) (wasClickInside p)
    (timeouts p ++ [HideIfOutside (scope_of f) e]) (uncaught p).

(** [ev => ev.key === 'Escape' && this.hide()]; [defaultPrevented] is the
    answer of the host to the [overlay-before-hidden] event of that call. *)
Definition escKeyHandler (k : option string) (defaultPrevented : bool) (p : Page)
    : Page :=
  match k with
  | Some name =>
      if String.eqb name "Escape" then
        mkPage (hide defaultPrevented (host p)) (wasClickInside p) (timeouts p)
          (uncaught p)
      else p
  | None => p
  end.

(** The browser calls the callback of a listener with the event. *)
Definition call_listener (ev : Dispatch) (cancel : Dom.Fn → bool)
    (p : Page) (l : Dom.Listener) : Page :=
  let f := Dom.callback l in
  match Dom.fn_code f with
  | Dom.PreventClose => preventCloseOutsideClick f p
  | Dom.OnCapture => onCaptureHtmlClick f (event ev) p
  | Dom.EscKey => escKeyHandler (key ev) (cancel f) p
  end.

(** [node] is the target of the event or one of the target's ancestors. *)
Definition on_path (node : Dom.Node) (e : Dom.Event) : bool :=
  match Dom.target e with
  | Some t => walk_up node t
  | None => false
  end.

Definition is_target (node : Dom.Node) (e : Dom.Event) : bool :=
  match Dom.target e with
  | Some t => Dom.same_node t node
  | None => false
  end.

Definition listeners_for (ty : string) (cap : bool) (ls : list Dom.Listener)
    : list Dom.Listener :=
  filter (λ l, Dom.type l = ty ∧ Dom.capture l = cap) ls.

(** The listeners of the class an event invokes, in order: the capturing
    ones from the document down to [this], then the others on the way back
    up (at the target itself, or further up when the event bubbles).  The
    root element lies above every other element, the document above the
    root element. *)
Definition invoked (doc : Document) (ev : Dispatch) (s : State)
    : list Dom.Listener :=
  let ty := event_type ev in
  let e := event ev in
  let down (node : Dom.Node) (ls : list Dom.Listener) :=
    if on_path node e then listeners_for ty true ls else [] in
  let up (node : Dom.Node) (ls : list Dom.Listener) :=
    if is_target node e || (bubbles ev && on_path node e)
    then listeners_for ty false ls else [] in
  down (document doc) (document_listeners s) ++
  down (documentElement doc) (documentElement_listeners s) ++
  down (this_element doc) (this_listeners s) ++
  up (this_element doc) (this_listeners s) ++
  up (documentElement doc) (documentElement_listeners s) ++
  up (document doc) (document_listeners s).

(** The event is dispatched: the listeners it invokes run one after the
    other.  [cancel f] tells whether the host cancels the
    [overlay-before-hidden] event of the [hide] that handler [f] calls. *)
Definition dispatch (doc : Document) (ev : Dispatch) (cancel : Dom.Fn → bool)
    (p : Page) : Page :=
  fold_left (call_listener ev cancel) (invoked doc ev (host p)) p.

(** The oldest callback waiting without a delay runs.  The callback of
    [_onCaptureHtmlClick] is
    [if (wasClickInside === false && !this.isElementAllowed(this, e)) this.hide()]. *)
Definition run_timeout (doc : Document) (defaultPrevented : bool) (p : Page)
    : Page :=
  match timeouts p with
  | [] => p
  | ResetWasClickInside c :: rest =>
      mkPage (host p) (wasClickInside p ∖ {[c]}) rest (uncaught p)
  | HideIfOutside c e :: rest =>
      if bool_decide (c ∈ wasClickInside p) then
        mkPage (host p) (wasClickInside p) rest (uncaught p)
      else
        match isElementAllowed (host p) (this_element doc) e with
        | Throw err =>
            mkPage (host p) (wasClickInside p) rest (uncaught p ++ [err])
        | Normal true => mkPage (host p) (wasClickInside p) rest (uncaught p)
        | Normal false =>
            mkPage (hide defaultPrevented (host p)) (wasClickInside p) rest
              (uncaught p)
        end
  end.

(** As many of the waiting callbacks run as there are answers, each with
    the answer of the host to its [overlay-before-hidden] event. *)
Fixpoint run_timeouts (doc : Document) (answers : list bool) (p : Page) : Page :=
  match answers with
  | [] => p
  | defaultPrevented :: rest =>
      run_timeouts doc rest (run_timeout doc defaultPrevented p)
  end.

(** A page in which no handler has run yet. *)
Definition page_of (s : State) : Page := mkPage s ∅ [] [].

End MxOverlayPage.

(** * Properties *)

(** ** Nodes and listener lists *)

Section DomFacts.
Import Dom.

Lemma Node_chain_ind (P : Node → Prop) :
  (∀ k i, P (mkNode k i None)) →
  (∀ k i p, P p → P (mkNode k i (Some p))) →
  ∀ n, P n.
Proof.
  intros Htop Hstep. fix IH 1.
  intros [k i [p|]]; [apply Hstep, IH | apply Htop].
Qed.

Lemma same_node_refl n : same_node n n = true.
Proof.
  induction n as [k i | k i p IH] using Node_chain_ind; simpl;
    rewrite Nat.eqb_refl, String.eqb_refl; simpl; auto.
Qed.

Lemma same_node_eq a b : same_node a b = true → a = b.
Proof.
  revert b. induction a as [k i | k i p IH] using Node_chain_ind;
    intros [kb ib [q|]]; simpl; intros H;
    repeat (apply andb_prop in H; destruct H as [H ?]);
    try discriminate.
  - apply Nat.eqb_eq in H. apply String.eqb_eq in H1. congruence.
  - apply Nat.eqb_eq in H. apply String.eqb_eq in H1.
    rewrite (IH q H0). congruence.
Qed.

Lemma ancestors_depth e c : In c (ancestors e) → depth c < depth e.
Proof.
  induction e as [k i | k i p IH] using Node_chain_ind; simpl.
  - tauto.
  - intros [-> | Hin]; [lia | specialize (IH Hin); lia].
Qed.

(** No node is among its own proper ancestors. *)
Lemma not_own_ancestor c : ¬ In c (ancestors c).
Proof. intros H. apply ancestors_depth in H. lia. Qed.

Lemma ancestors_parentNode t :
  ancestors t = match parentNode t with
                | Some p => p :: ancestors p
                | None => []
                end.
Proof. destruct t as [k i [p|]]; reflexivity. Qed.

Lemma removeEventListener_idem ty cb cap ls :
  removeEventListener ty cb cap (removeEventListener ty cb cap ls)
  = removeEventListener ty cb cap ls.
Proof.
  destruct cb as [f|]; simpl; [| reflexivity].
  induction ls as [| l ls IH]; [reflexivity |].
  rewrite filter_cons. destruct (decide (l ≠ mkListener ty f cap)) as [Hne | He].
  - rewrite filter_cons. destruct (decide (l ≠ mkListener ty f cap)); [| tauto].
    f_equal. exact IH.
  - exact IH.
Qed.

Lemma removeEventListener_gone ty f cap ls :
  mkListener ty f cap ∉ removeEventListener ty (Some f) cap ls.
Proof.
  simpl. intros H. apply list_elem_of_filter in H. destruct H as [H _].
  apply H. reflexivity.
Qed.

End DomFacts.

(** ** src/overlay-mixin.ts: containment and the ignore list *)

Section Containment.
Import MxOverlay.

Lemma walk_up_unfold parent node :
  walk_up parent node =
  if Dom.same_node node parent then true
  else match Dom.parentNode node with
       | Some up => walk_up parent up
       | None => false
       end.
Proof. destruct node as [k i [p|]]; reflexivity. Qed.

Lemma walk_up_spec parent node :
  walk_up parent node = true ↔ parent = node ∨ In parent (Dom.ancestors node).
Proof.
  induction node as [k i | k i p IH] using Node_chain_ind;
    rewrite walk_up_unfold;
    match goal with |- context [Dom.same_node ?n parent] =>
      destruct (Dom.same_node n parent) eqn:E
    end;
    try (apply same_node_eq in E; subst parent; split; auto; fail);
    cbn [Dom.parentNode Dom.ancestors].
  - split; [discriminate |]. intros [-> | []].
    rewrite same_node_refl in E. discriminate.
  - rewrite IH. split.
    + intros [-> | H]; right; [left | right]; auto.
    + intros [-> | [-> | H]]; auto.
      rewrite same_node_refl in E. discriminate.
Qed.

(** The ancestor walk finds the container exactly when the target is one of
    its descendants. *)
Lemma isElementContained_spec parent event :
  isElementContained parent event = true ↔
  ∃ t, Dom.target event = Some t ∧ Dom.descendant_of t parent.
Proof.
  unfold isElementContained, Dom.descendant_of.
  destruct (Dom.target event) as [t|].
  - destruct (Dom.parentNode t) as [p|] eqn:Hp.
    + rewrite walk_up_spec. split.
      * intros H. exists t. split; [reflexivity |].
        rewrite ancestors_parentNode, Hp. destruct H as [-> | H]; simpl; auto.
      * intros (t' & [= <-] & H). rewrite ancestors_parentNode, Hp in H.
        destruct H as [-> | H]; auto.
    + split; [discriminate |]. intros (t' & [= <-] & H).
      rewrite ancestors_parentNode, Hp in H. destruct H.
  - split; [discriminate | intros (t' & [=] & _)].
Qed.

Lemma overlayToIgnore_fold_mono (ids : list string) (X : gset string) i :
  i ∈ X → i ∈ fold_left (λ X id, if truthy id then {[id]} ∪ X else X) ids X.
Proof.
  revert X. induction ids as [| a ids IH]; intros X H; simpl; [exact H |].
  apply IH. destruct (truthy a); set_solver.
Qed.

(** Every non-empty identifier handed to [overlayToIgnore] is in the set
    afterwards. *)
Lemma overlayToIgnore_registers ids s i :
  In i ids → i ≠ "" → i ∈ _overlayToIgnore (overlayToIgnore ids s).
Proof.
  unfold overlayToIgnore; simpl. generalize (_overlayToIgnore s).
  induction ids as [| a ids IH]; intros X Hin Hne; [destruct Hin |].
  simpl. destruct Hin as [-> | Hin].
  - apply overlayToIgnore_fold_mono. unfold truthy.
    destruct (String.eqb_spec i ""); [contradiction | simpl; set_solver].
  - apply IH; assumption.
Qed.

Lemma scan_path_finds (ignore : gset string) path element :
  In element path → Dom.id element ≠ "" → Dom.id element ∈ ignore →
  scan_path ignore path = true.
Proof.
  intros Hin Hne Hreg. induction path as [| e path IH]; [destruct Hin |].
  simpl. destruct Hin as [-> | Hin].
  - unfold truthy. destruct (String.eqb_spec (Dom.id element) ""); [contradiction |].
    rewrite bool_decide_eq_true_2 by assumption. reflexivity.
  - destruct (truthy (Dom.id e) && bool_decide (Dom.id e ∈ ignore)); auto.
Qed.

(** With an event that carries its path, a target inside the container is
    allowed whatever the ignore list holds. *)
Lemma contained_target_allowed_with_path s container event t path :
  Dom.target event = Some t → Dom.descendant_of t container →
  Dom.path event = Some path →
  isElementAllowed s container event = Normal true.
Proof.
  intros Ht Hd Hp. unfold isElementAllowed. rewrite Hp.
  assert (isElementContained container event = true) as ->
    by (apply isElementContained_spec; eauto).
  case_bool_decide; [destruct (scan_path _ path) |]; reflexivity.
Qed.

(** Without registered identifiers, [event.path] is never read. *)
Lemma isElementAllowed_empty_ignore s parent event :
  _overlayToIgnore s = ∅ →
  isElementAllowed s parent event = Normal (isElementContained parent event).
Proof.
  intros H. unfold isElementAllowed. rewrite H, size_empty.
  rewrite bool_decide_eq_false_2 by lia. reflexivity.
Qed.

(** With a registered identifier and no [event.path], the call throws. *)
Lemma isElementAllowed_absent_path s parent event :
  _overlayToIgnore s ≠ ∅ → Dom.path event = None →
  isElementAllowed s parent event = Throw TypeError.
Proof.
  intros H Hp. unfold isElementAllowed. rewrite Hp.
  rewrite bool_decide_eq_true_2; [reflexivity |].
  destruct (size (_overlayToIgnore s)) eqn:E; [| lia].
  apply size_empty_inv in E. apply leibniz_equiv in E. contradiction.
Qed.

(** C4. [isElementAllowed] is not total: with the identifier "menu-trigger"
    registered, an event that has a target but no [path] property makes the
    loop over [event.path] throw a TypeError instead of falling through to
    the ancestor walk. *)
Theorem C4_isElementAllowed_throws_without_path :
  let s := overlayToIgnore ["menu-trigger"] (init "" true) in
  let container := Dom.mkNode 1 "overlay" None in
  let button := Dom.mkNode 2 "outside" None in
  isElementAllowed s container (Dom.mkEvent (Some button) None) = Throw TypeError.
Proof. vm_compute. reflexivity. Qed.

(** C7. Ignore-list precedence: when the path of an event holds an element
    whose non-empty identifier was handed to [overlayToIgnore],
    [isElementAllowed] returns true, wherever the target of the event is. *)
Theorem C7_ignore_list_precedence s ids parent event path element :
  Dom.path event = Some path →
  In element path →
  In (Dom.id element) ids →
  Dom.id element ≠ "" →
  isElementAllowed (overlayToIgnore ids s) parent event = Normal true.
Proof.
  intros Hp Hin Hid Hne.
  pose proof (overlayToIgnore_registers ids s _ Hid Hne) as Hreg.
  unfold isElementAllowed. rewrite Hp.
  rewrite bool_decide_eq_true_2.
  - rewrite (scan_path_finds _ path element); auto.
  - destruct (size (_overlayToIgnore (overlayToIgnore ids s))) eqn:E; [| lia].
    apply size_empty_inv in E. set_solver.
Qed.

Lemma C7_ignore_list_precedence_witness :
  let outside := Dom.mkNode 7 "menu-trigger" (Some (Dom.mkNode 0 "" None)) in
  let event := Dom.mkEvent (Some outside) (Some [outside; Dom.mkNode 0 "" None]) in
  isElementAllowed (overlayToIgnore ["menu-trigger"] (init "" true))
    (Dom.mkNode 1 "overlay" (Some (Dom.mkNode 0 "" None))) event = Normal true.
Proof.
  intros outside event.
  apply (C7_ignore_list_precedence (init "" true) ["menu-trigger"] _ event
           [outside; Dom.mkNode 0 "" None] outside).
  - reflexivity.
  - simpl. left. reflexivity.
  - simpl. left. reflexivity.
  - simpl. discriminate.
Defined.

(** C8. A target inside the container is not always classified as inside:
    with an identifier registered and an event that has no [path] property,
    [isElementAllowed] throws before it reaches the ancestor walk, although
    the target is a child of the container. *)
Theorem C8_contained_target_throws_without_path :
  let s := overlayToIgnore ["menu-trigger"] (init "" true) in
  let container := Dom.mkNode 1 "overlay" None in
  let child := Dom.mkNode 2 "item" (Some container) in
  let event := Dom.mkEvent (Some child) None in
  Dom.descendant_of child container ∧
  isElementContained container event = true ∧
  isElementAllowed s container event = Throw TypeError.
Proof.
  cbv zeta. split; [left; reflexivity |]. split; vm_compute; reflexivity.
Qed.

(** C10. When the target of an event is the container itself,
    [isElementContained] returns false, and with an empty ignore set
    [isElementAllowed] returns false as well. *)
Theorem C10_container_itself_is_outside s container event :
  Dom.target event = Some container →
  isElementContained container event = false ∧
  (_overlayToIgnore s = ∅ → isElementAllowed s container event = Normal false).
Proof.
  intros Ht.
  assert (isElementContained container event = false) as Hc.
  { destruct (isElementContained container event) eqn:E; [| reflexivity].
    apply isElementContained_spec in E. destruct E as (t & Ht' & Hd).
    rewrite Ht in Ht'. injection Ht' as <-.
    destruct (not_own_ancestor _ Hd). }
  split; [exact Hc |].
  intros Hempty. rewrite isElementAllowed_empty_ignore by assumption.
  rewrite Hc. reflexivity.
Qed.

Lemma C10_container_itself_is_outside_witness :
  let container := Dom.mkNode 1 "overlay" (Some (Dom.mkNode 0 "" None)) in
  let event := Dom.mkEvent (Some container) (Some [container; Dom.mkNode 0 "" None]) in
  isElementContained container event = false ∧
  isElementAllowed (init "" true) container event = Normal false.
Proof.
  intros container event.
  destruct (C10_container_itself_is_outside (init "" true) container event
              eq_refl) as [Hc Ha].
  split; [exact Hc | apply Ha; reflexivity].
Defined.

End Containment.

(** ** src/overlay-mixin.ts: show, hide and the z-index *)

Section Lifecycle.
Import MxOverlay.

(** C2. A cancelled [mx-overlay-before-shown] leaves [show] with no effect
    but the dispatch of that event: [opened], [hidden], the z-index, the
    listeners and the waiting timers are as before and no
    [mx-overlay-shown] follows; the same holds for [hide] and a cancelled
    [overlay-before-hidden]. *)
Theorem C2_cancelled_notification_changes_nothing s :
  (show true s = dispatchEvent "mx-overlay-before-shown" s ∧
   opened (show true s) = opened s ∧
   hidden (show true s) = hidden s ∧
   observable (show true s) = observable s ∧
   _initialZIndex (show true s) = _initialZIndex s ∧
   timers (show true s) = timers s ∧
   dispatched (show true s) = dispatched s ++ ["mx-overlay-before-shown"]) ∧
  (hide true s = dispatchEvent "overlay-before-hidden" s ∧
   opened (hide true s) = opened s ∧
   hidden (hide true s) = hidden s ∧
   observable (hide true s) = observable s ∧
   _initialZIndex (hide true s) = _initialZIndex s ∧
   timers (hide true s) = timers s ∧
   dispatched (hide true s) = dispatched s ++ ["overlay-before-hidden"]).
Proof. repeat split. Qed.

(** The z-index right after [show] and after the [hide] that follows, when
    the overlay is not [alwaysOpen]. *)
Lemma show_zIndex s :
  alwaysOpen s = false →
  style_zIndex (show false s) =
    (if lt (Number (style_zIndex s)) (Num _overlayMinZIndex)
     then toString _overlayMinZIndex else style_zIndex s) ∧
  _initialZIndex (show false s) = Some (style_zIndex s).
Proof.
  intros Ha. unfold show, handleFeatures, handleZIndex; simpl. rewrite Ha; simpl.
  destruct (lt (Number (style_zIndex s)) (Num _overlayMinZIndex)); simpl; auto.
Qed.

Lemma hide_zIndex s :
  style_zIndex (hide false s) = Dom.assign_zIndex (_initialZIndex s) (style_zIndex s).
Proof. reflexivity. Qed.

(** A value that reads as a number below the floor is replaced by the floor
    while the overlay is shown. *)
Lemma show_elevates_below_floor s :
  alwaysOpen s = false →
  lt (Number (style_zIndex s)) (Num _overlayMinZIndex) = true →
  style_zIndex (show false s) = "1000".
Proof.
  intros Ha Hlt. destruct (show_zIndex s Ha) as [-> _]. rewrite Hlt. reflexivity.
Qed.

(** [hide] writes back what [show] recorded; when [show] ran the tear-down
    branch instead, what an earlier show recorded. *)
Lemma zIndex_round_trip_core s :
  alwaysOpen s = false ∨ _initialZIndex s = None ∨
    _initialZIndex s = Some (style_zIndex s) →
  style_zIndex (hide false (show false s)) = style_zIndex s.
Proof.
  intros H. rewrite hide_zIndex.
  destruct (alwaysOpen s) eqn:Ha.
  - assert (Dom.assign_zIndex (_initialZIndex s) (style_zIndex s) = style_zIndex s) as Hs.
    { destruct H as [H | [H | H]]; [discriminate | |]; rewrite H; reflexivity. }
    unfold show, handleFeatures, handleZIndex; simpl. rewrite Ha; simpl.
    rewrite Hs. exact Hs.
  - destruct (show_zIndex s Ha) as [_ ->]. reflexivity.
Qed.

(** C5. An overlay went through one cycle with z-index "5"; the host then
    sets the z-index to "2000" and [alwaysOpen] to true.  The overlay is
    hidden.  The next [show] runs [handleFeatures(false)], whose
    [handleZIndex] writes the [_initialZIndex] recorded by the earlier show
    over the z-index of the host: the overlay is shown with z-index "5", and
    the [hide] that follows leaves "5", not "2000". *)
Lemma C5_stale_zIndex_written_back :
  let s := run [Show false; Tick; Hide false; Tick;
                SetStyleZIndex "2000"; SetAlwaysOpen true] (init "5" true) in
  reachable s ∧
  opened s = false ∧ hidden s = true ∧ alwaysOpen s = true ∧
  style_zIndex s = "2000" ∧ _initialZIndex s = Some "5" ∧
  opened (show false s) = true ∧ style_zIndex (show false s) = "5" ∧
  style_zIndex (hide false (show false s)) = "5" ∧
  style_zIndex (hide false (show false s)) ≠ style_zIndex s.
Proof.
  cbv zeta. split; [eexists "5", true, _; reflexivity |].
  vm_compute. repeat split; discriminate.
Qed.

(** As long as the class alone writes the z-index after construction, a
    closed overlay has either recorded nothing or recorded the current
    value, and the round trip holds for it whatever [alwaysOpen] is. *)
Lemma closed_overlay_records_current_zIndex z h acts :
  Forall (λ a, ∀ v, a ≠ SetStyleZIndex v) acts →
  let s := run acts (init z h) in
  opened s = false →
  _initialZIndex s = None ∨ _initialZIndex s = Some (style_zIndex s).
Proof.
  unfold run. induction acts as [| a acts IH] using rev_ind; intros Hno.
  - simpl. auto.
  - apply Forall_app in Hno. destruct Hno as [Hacts Ha].
    apply Forall_cons in Ha. destruct Ha as [Ha _].
    specialize (IH Hacts). cbv zeta in IH.
    rewrite fold_left_app. cbn [fold_left].
    set (s := fold_left (λ st a, exec a st) acts (init z h)) in *.
    destruct a as [c | c | ids | | | b | v]; cbn [exec].
    + destruct c; [exact IH |]. intros H. exfalso. revert H.
      unfold show, handleFeatures, handleZIndex; cbn [negb].
      destruct (negb _); [| discriminate].
      match goal with |- context [if ?c then _ else _] => destruct c end;
        discriminate.
    + destruct c; [exact IH |]. intros _.
      unfold hide, handleFeatures, handleZIndex; simpl.
      destruct (_initialZIndex s); auto.
    + exact IH.
    + intros _. unfold disconnectedCallback, handleFeatures, handleZIndex; simpl.
      destruct (_initialZIndex s); auto.
    + unfold tick. destruct (timers s) as [| t q]; [exact IH |].
      destruct t; exact IH.
    + exact IH.
    + destruct (Ha v eq_refl).
Qed.

Lemma round_trip_while_only_the_class_writes_zIndex z h acts :
  Forall (λ a, ∀ v, a ≠ SetStyleZIndex v) acts →
  let s := run acts (init z h) in
  opened s = false →
  style_zIndex (hide false (show false s)) = style_zIndex s.
Proof.
  intros Hno s Hclosed.
  apply zIndex_round_trip_core. right.
  exact (closed_overlay_records_current_zIndex z h acts Hno Hclosed).
Qed.

(** C6, counterexample. With z-index "auto", [show] does not set the
    z-index to "1000". *)
Lemma C6_auto_not_raised_to_floor :
  alwaysOpen (init "auto" true) = false ∧
  style_zIndex (show false (init "auto" true)) = "auto" ∧
  style_zIndex (show false (init "auto" true)) ≠ "1000".
Proof. vm_compute. repeat split; discriminate. Qed.

(** C6, as amended. With z-index "auto" and [alwaysOpen] false, [show]
    leaves the z-index at "auto" ([Number("auto")] is NaN, which is not
    below the floor), and the [hide] that follows leaves it at "auto". *)
Theorem C6_auto_stays_auto s :
  alwaysOpen s = false →
  style_zIndex s = "auto" →
  style_zIndex (show false s) = "auto" ∧
  style_zIndex (hide false (show false s)) = "auto".
Proof.
  intros Ha Hz. destruct (show_zIndex s Ha) as [Hshow Hinit].
  rewrite Hz in Hshow, Hinit. split; [exact Hshow |].
  rewrite hide_zIndex, Hinit. reflexivity.
Qed.

Lemma C6_auto_stays_auto_witness :
  style_zIndex (show false (init "auto" true)) = "auto" ∧
  style_zIndex (hide false (show false (init "auto" true))) = "auto".
Proof. apply (C6_auto_stays_auto (init "auto" true)); reflexivity. Defined.

End Lifecycle.

(** ** src/overlay-mixin.ts: the deferred listener set-up and tear-down *)

Section Timers.
Import MxOverlay.

Lemma removeEventListener_twice ty1 ty2 cb cap ls :
  Dom.removeEventListener ty2 cb cap
    (Dom.removeEventListener ty1 cb cap
       (Dom.removeEventListener ty2 cb cap
          (Dom.removeEventListener ty1 cb cap ls)))
  = Dom.removeEventListener ty2 cb cap (Dom.removeEventListener ty1 cb cap ls).
Proof.
  destruct cb as [f|]; simpl; [| reflexivity].
  rewrite !list_filter_filter. apply list_filter_iff. intros l. tauto.
Qed.

Lemma removeEventListener_subset ty cb cap ls l :
  l ∈ Dom.removeEventListener ty cb cap ls → l ∈ ls.
Proof.
  destruct cb as [f|]; simpl; [| auto].
  intros H. apply list_elem_of_filter in H. tauto.
Qed.

Lemma features_callback_set_timers b q s :
  features_callback b (set_timers q s) = set_timers q (features_callback b s).
Proof. destruct b; reflexivity. Qed.

Lemma set_timers_same s : set_timers (timers s) s = s.
Proof. destruct s; reflexivity. Qed.

Lemma tick_cons b q s :
  timers s = b :: q → tick s = set_timers q (features_callback b s).
Proof.
  intros H. unfold tick. rewrite H. apply features_callback_set_timers.
Qed.

(** Running the waiting callbacks applies them in order to the state. *)
Lemma run_timers_fold s :
  run_timers s =
  fold_left (λ st b, features_callback b st) (timers s) (set_timers [] s).
Proof.
  unfold run_timers. remember (timers s) as q eqn:Hq. symmetry in Hq.
  revert s Hq. induction q as [| b q IH]; intros s Hq.
  - simpl. rewrite <- Hq. symmetry. apply set_timers_same.
  - change (length (b :: q)) with (S (length q)).
    rewrite Nat.iter_succ_r, (tick_cons b q s Hq).
    rewrite IH by reflexivity. cbn [fold_left]. f_equal.
    destruct b; reflexivity.
Qed.

Lemma fold_callbacks_timers q s :
  timers (fold_left (λ st b, features_callback b st) q s) = timers s.
Proof.
  revert s. induction q as [| b q IH]; intros s; simpl; [reflexivity |].
  rewrite IH. destruct b; reflexivity.
Qed.

(** The tear-down callback does nothing more when run a second time. *)
Lemma features_callback_false_idem s :
  features_callback false (features_callback false s) = features_callback false s.
Proof.
  destruct s. unfold features_callback, handleHidesOnOutsideClick,
    handleHidesOnOutsideEsc. cbn.
  rewrite removeEventListener_idem, !removeEventListener_twice. reflexivity.
Qed.

Lemma handleZIndex_false_idem s :
  handleZIndex false (handleZIndex false s) = handleZIndex false s.
Proof. destruct s as [? ? ? ? ? ? [z|] ? ? ? ? ? ? ? ?]; reflexivity. Qed.

(** After the tear-down callback none of the current handlers is attached. *)
Lemma features_callback_false_detaches s :
  current_handlers_detached (features_callback false s).
Proof.
  destruct s. unfold current_handlers_detached, features_callback,
    handleHidesOnOutsideClick, handleHidesOnOutsideEsc. cbn. repeat split.
  - intros f ->. apply removeEventListener_gone.
  - subst. intros H. apply removeEventListener_subset in H.
    revert H. apply removeEventListener_gone.
  - subst. apply removeEventListener_gone.
  - subst. intros H. apply removeEventListener_subset in H.
    revert H. apply removeEventListener_gone.
  - subst. apply removeEventListener_gone.
Qed.

Lemma run_timers_after_teardown s :
  timers (run_timers (handleFeatures false s)) = [] ∧
  current_handlers_detached (run_timers (handleFeatures false s)).
Proof.
  rewrite run_timers_fold.
  change (timers (handleFeatures false s)) with (timers s ++ [false]).
  rewrite fold_left_app. cbn [fold_left]. split.
  - change (timers (features_callback false ?x)) with (timers x).
    rewrite fold_callbacks_timers. reflexivity.
  - apply features_callback_false_detaches.
Qed.

Lemma run_timers_dispatchEvent name s :
  run_timers (dispatchEvent name s) = dispatchEvent name (run_timers s).
Proof.
  rewrite !run_timers_fold.
  change (timers (dispatchEvent name s)) with (timers s).
  change (set_timers [] (dispatchEvent name s))
    with (dispatchEvent name (set_timers [] s)).
  generalize (set_timers [] s). induction (timers s) as [| b q IH]; intros x.
  - reflexivity.
  - cbn [fold_left]. rewrite <- IH. f_equal. destruct b; reflexivity.
Qed.

(** C3, counterexample. An overlay is shown and its listeners are attached;
    when [hide] returns, and when [disconnectedCallback] returns, the
    listeners on the three targets are all still attached and the callback
    that removes them waits in [setTimeout]. *)
Lemma C3_listeners_still_attached_after_hide :
  let s := run [Show false; Tick] (init "" true) in
  reachable s ∧
  document_listeners s ≠ [] ∧ this_listeners s ≠ [] ∧
  documentElement_listeners s ≠ [] ∧
  document_listeners (hide false s) = document_listeners s ∧
  this_listeners (hide false s) = this_listeners s ∧
  documentElement_listeners (hide false s) = documentElement_listeners s ∧
  timers (hide false s) = [false] ∧
  document_listeners (disconnectedCallback s) = document_listeners s ∧
  this_listeners (disconnectedCallback s) = this_listeners s ∧
  documentElement_listeners (disconnectedCallback s) = documentElement_listeners s ∧
  timers (disconnectedCallback s) = [false].
Proof.
  cbv zeta. split; [exists "", true, [Show false; Tick]; reflexivity |].
  vm_compute. repeat split; discriminate.
Qed.

(** C3, as amended. [hide] (not cancelled) and [disconnectedCallback] write
    the recorded z-index back before they return, leave every listener in
    place and queue the tear-down callback behind the waiting ones; once the
    waiting callbacks have run, no listener with a current handler is left
    on any of the three targets. *)
Theorem C3_disarm_runs_from_the_timer s :
  (style_zIndex (hide false s) = Dom.assign_zIndex (_initialZIndex s) (style_zIndex s) ∧
   this_listeners (hide false s) = this_listeners s ∧
   documentElement_listeners (hide false s) = documentElement_listeners s ∧
   document_listeners (hide false s) = document_listeners s ∧
   timers (hide false s) = timers s ++ [false] ∧
   timers (run_timers (hide false s)) = [] ∧
   current_handlers_detached (run_timers (hide false s))) ∧
  (style_zIndex (disconnectedCallback s)
     = Dom.assign_zIndex (_initialZIndex s) (style_zIndex s) ∧
   this_listeners (disconnectedCallback s) = this_listeners s ∧
   documentElement_listeners (disconnectedCallback s) = documentElement_listeners s ∧
   document_listeners (disconnectedCallback s) = document_listeners s ∧
   timers (disconnectedCallback s) = timers s ++ [false] ∧
   timers (run_timers (disconnectedCallback s)) = [] ∧
   current_handlers_detached (run_timers (disconnectedCallback s))).
Proof.
  split.
  - do 5 (split; [reflexivity |]).
    change (hide false s) with
      (dispatchEvent "overlay-hidden"
         (handleFeatures false (hideItem (dispatchEvent "overlay-before-hidden" s)))).
    rewrite run_timers_dispatchEvent.
    exact (run_timers_after_teardown
             (hideItem (dispatchEvent "overlay-before-hidden" s))).
  - do 5 (split; [reflexivity |]). apply run_timers_after_teardown.
Qed.

(** The theorem at an overlay that was shown and armed: after [hide] and its
    callback the three listener lists are empty again. *)
Lemma C3_disarm_runs_from_the_timer_witness :
  let s := run [Show false; Tick] (init "" true) in
  timers (hide false s) = timers s ++ [false] ∧
  current_handlers_detached (run_timers (hide false s)) ∧
  observable (run_timers (hide false s)) = ([], [], [], "", false).
Proof.
  cbv zeta.
  destruct (C3_disarm_runs_from_the_timer (run [Show false; Tick] (init "" true)))
    as [(_ & _ & _ & _ & Hq & _ & Hd) _].
  split; [exact Hq |]. split; [exact Hd |]. vm_compute. reflexivity.
Defined.

(** C9. Running the tear-down twice in a row gives the same state as running
    it once, both when the calls return and once the waiting callbacks have
    run; and on an instance whose features were never armed the tear-down
    and its callback change nothing: removing listeners that were never
    added leaves the listener lists as they are. *)
Theorem C9_teardown_idempotent_and_safe s :
  observable (handleFeatures false (handleFeatures false s))
    = observable (handleFeatures false s) ∧
  run_timers (handleFeatures false (handleFeatures false s))
    = run_timers (handleFeatures false s) ∧
  (never_armed s →
     observable (handleFeatures false s) = observable s ∧
     run_timers (handleFeatures false s) = s).
Proof.
  split; [| split].
  - unfold observable, handleFeatures, setTimeout; simpl.
    destruct (_initialZIndex s); reflexivity.
  - rewrite !run_timers_fold.
    change (timers (handleFeatures false (handleFeatures false s)))
      with ((timers s ++ [false]) ++ [false]).
    change (timers (handleFeatures false s)) with (timers s ++ [false]).
    change (set_timers [] (handleFeatures false (handleFeatures false s)))
      with (set_timers [] (handleZIndex false (handleZIndex false s))).
    change (set_timers [] (handleFeatures false s))
      with (set_timers [] (handleZIndex false s)).
    rewrite handleZIndex_false_idem, !fold_left_app. simpl.
    apply features_callback_false_idem.
  - intros (Hz & He & Hp & Hc & Hq). split.
    + unfold observable, handleFeatures, setTimeout, handleZIndex; simpl.
      rewrite Hz. reflexivity.
    + rewrite run_timers_fold.
      change (timers (handleFeatures false s)) with (timers s ++ [false]).
      rewrite Hq. destruct s; simpl in *. subst. reflexivity.
Qed.

Lemma C9_teardown_idempotent_and_safe_witness :
  never_armed (init "auto" true) ∧
  observable (handleFeatures false (init "auto" true)) = observable (init "auto" true) ∧
  run_timers (handleFeatures false (init "auto" true)) = init "auto" true.
Proof.
  assert (never_armed (init "auto" true)) as H by (repeat split).
  split; [exact H |].
  exact (proj2 (proj2 (C9_teardown_idempotent_and_safe (init "auto" true))) H).
Defined.

End Timers.

(** ** The unified revision: when the outside listeners are attached *)

Section ActionEvents.
Import MxOverlayActionEvents.

Lemma addEventListener_fresh ty f cap ls :
  Dom.mkListener ty f cap ∉ ls →
  Dom.addEventListener ty (Some f) cap ls = ls ++ [Dom.mkListener ty f cap].
Proof. intros H. unfold Dom.addEventListener. rewrite decide_False; auto. Qed.

(** Adding the action listeners to an empty list, and removing them again. *)
Lemma add_action_listeners f :
  Dom.addEventListener "scroll" (Some f) true
    (Dom.addEventListener "touchstart" (Some f) true
       (Dom.addEventListener "mousedown" (Some f) true []))
  = action_listeners f.
Proof.
  rewrite (addEventListener_fresh "mousedown") by apply not_elem_of_nil.
  cbn [app].
  rewrite (addEventListener_fresh "touchstart")
    by (rewrite list_elem_of_singleton; discriminate).
  cbn [app].
  rewrite (addEventListener_fresh "scroll"); [reflexivity |].
  rewrite !elem_of_cons, elem_of_nil. intros [H | [H | []]]; discriminate.
Qed.

Lemma remove_action_listeners f :
  Dom.removeEventListener "scroll" (Some f) true
    (Dom.removeEventListener "touchstart" (Some f) true
       (Dom.removeEventListener "mousedown" (Some f) true (action_listeners f)))
  = [].
Proof.
  unfold action_listeners, _overlayActionEvents, Dom.removeEventListener.
  cbn [map]. rewrite !list_filter_filter.
  match goal with |- ?l = [] => destruct l as [| x rest] eqn:E end;
    [reflexivity |].
  assert (x ∈ x :: rest) as Hx by apply elem_of_cons, or_introl, eq_refl.
  rewrite <- E in Hx. apply list_elem_of_filter in Hx.
  destruct Hx as [Hp Hx]. simpl in Hp.
  rewrite !elem_of_cons, elem_of_nil in Hx.
  destruct Hx as [-> | [-> | [-> | []]]]; intuition congruence.
Qed.

Lemma remove_from_nil ty cb cap : Dom.removeEventListener ty cb cap [] = [].
Proof. destruct cb; reflexivity. Qed.

(** What [handleOverlayListeners] does to the fields the invariant reads. *)
Lemma handleOverlayListeners_fields (show : bool) s :
  let m := if show then Dom.addEventListener_name else Dom.removeEventListener_name in
  let s' := handleOverlayListeners show s in
  _listenersAttached s' = show ∧
  _preventCloseOnOutsideEvent s' = _preventCloseOnOutsideEvent s ∧
  _onCaptureOverlayActionEvent s' = _onCaptureOverlayActionEvent s ∧
  this_listeners s' =
    Dom.call m "scroll" (_preventCloseOnOutsideEvent s) true
      (Dom.call m "touchstart" (_preventCloseOnOutsideEvent s) true
         (Dom.call m "mousedown" (_preventCloseOnOutsideEvent s) true
            (this_listeners s))) ∧
  documentElement_listeners s' =
    Dom.call m "scroll" (_onCaptureOverlayActionEvent s) true
      (Dom.call m "touchstart" (_onCaptureOverlayActionEvent s) true
         (Dom.call m "mousedown" (_onCaptureOverlayActionEvent s) true
            (documentElement_listeners s))).
Proof. repeat split. Qed.

Lemma listeners_inv_ext s s' :
  _listenersAttached s' = _listenersAttached s →
  _preventCloseOnOutsideEvent s' = _preventCloseOnOutsideEvent s →
  _onCaptureOverlayActionEvent s' = _onCaptureOverlayActionEvent s →
  this_listeners s' = this_listeners s →
  documentElement_listeners s' = documentElement_listeners s →
  listeners_inv s → listeners_inv s'.
Proof.
  unfold listeners_inv. intros -> -> -> -> ->. auto.
Qed.

Lemma handleHidesOnOutsideEsc_inv (show : bool) s :
  listeners_inv s → listeners_inv (handleHidesOnOutsideEsc show s).
Proof. apply listeners_inv_ext; destruct show; reflexivity. Qed.

(** The callback of [handleFeatures] keeps the invariant and leaves
    [_listenersAttached] equal to its [show]. *)
Lemma features_callback_inv (show : bool) s :
  listeners_inv s →
  listeners_inv (features_callback show s) ∧
  _listenersAttached (features_callback show s) = show.
Proof.
  intros Hinv. apply (handleHidesOnOutsideEsc_inv show) in Hinv.
  unfold features_callback. set (s1 := handleHidesOnOutsideEsc show s) in *.
  clearbody s1. unfold handleHidesOnOutsideClick.
  destruct show.
  - destruct (_listenersAttached s1) eqn:Hflag; [auto |].
    unfold listeners_inv in Hinv. rewrite Hflag in Hinv. destruct Hinv as [Ht Hd].
    set (f := Dom.mkFn (next_fn s1) Dom.PreventClose).
    set (g := Dom.mkFn (S (next_fn s1)) Dom.OnCapture).
    set (s2 := set_action_handlers (Some f) (Some g) (S (S (next_fn s1))) s1).
    destruct (handleOverlayListeners_fields true s2) as (Hf & Hp & Hc & Hthis & Hdoc).
    split; [| exact Hf].
    unfold listeners_inv. rewrite Hf. exists f, g.
    rewrite Hp, Hc, Hthis, Hdoc.
    change (this_listeners s2) with (this_listeners s1).
    change (documentElement_listeners s2) with (documentElement_listeners s1).
    rewrite Ht, Hd. cbn [Dom.call].
    change (_preventCloseOnOutsideEvent s2) with (Some f).
    change (_onCaptureOverlayActionEvent s2) with (Some g).
    rewrite !add_action_listeners. repeat split.
  - destruct (handleOverlayListeners_fields false s1) as (Hf & Hp & Hc & Hthis & Hdoc).
    split; [| exact Hf].
    unfold listeners_inv in *. rewrite Hf, Hthis, Hdoc. cbn [Dom.call].
    destruct (_listenersAttached s1).
    + destruct Hinv as (f & g & -> & -> & -> & ->).
      rewrite !remove_action_listeners. split; reflexivity.
    + destruct Hinv as [-> ->]. rewrite !remove_from_nil. split; reflexivity.
Qed.

Lemma addEventListener_elem ty f cap ls :
  Dom.mkListener ty f cap ∈ Dom.addEventListener ty (Some f) cap ls.
Proof.
  unfold Dom.addEventListener. case_decide; [assumption |].
  apply elem_of_app. right. apply list_elem_of_singleton. reflexivity.
Qed.

(** After the callback of [handleFeatures] the current Escape handler is
    registered exactly when its [show] is true. *)
Lemma features_callback_escape (show : bool) s :
  escape_listener_attached (features_callback show s) ↔ show = true.
Proof.
  unfold escape_listener_attached, features_callback.
  assert (∀ x, _escKeyHandler (handleHidesOnOutsideClick show x) = _escKeyHandler x
               ∧ document_listeners (handleHidesOnOutsideClick show x)
                 = document_listeners x) as Hsame.
  { intros x. unfold handleHidesOnOutsideClick.
    destruct show; [destruct (_listenersAttached x) |]; split; reflexivity. }
  destruct (Hsame (handleHidesOnOutsideEsc show s)) as [-> ->].
  destruct show; simpl.
  - split; [reflexivity |]. intros _. eexists. split; [reflexivity |].
    apply addEventListener_elem.
  - split; [| discriminate]. intros (f & Hf & Hin). exfalso.
    rewrite Hf in Hin. revert Hin. apply removeEventListener_gone.
Qed.

Lemma features_callback_flags (show : bool) s :
  opened (features_callback show s) = opened s ∧
  alwaysOpen (features_callback show s) = alwaysOpen s ∧
  timers (features_callback show s) = timers s.
Proof.
  unfold features_callback, handleHidesOnOutsideClick.
  destruct show; [destruct (_listenersAttached _) |]; repeat split.
Qed.

Lemma features_callback_guard s :
  _listenersAttached s = true →
  outside_listeners (features_callback true s) = outside_listeners s.
Proof.
  intros H. unfold features_callback, handleHidesOnOutsideClick.
  change (_listenersAttached (handleHidesOnOutsideEsc true s))
    with (_listenersAttached s). rewrite H. reflexivity.
Qed.

Lemma set_timers_same_unified s : set_timers (timers s) s = s.
Proof. destruct s; reflexivity. Qed.

Lemma features_callback_set_timers_unified b q s :
  features_callback b (set_timers q s) = set_timers q (features_callback b s).
Proof.
  unfold features_callback, handleHidesOnOutsideClick.
  destruct b; [| reflexivity].
  change (_listenersAttached (handleHidesOnOutsideEsc true (set_timers q s)))
    with (_listenersAttached s).
  change (_listenersAttached (handleHidesOnOutsideEsc true s))
    with (_listenersAttached s).
  destruct (_listenersAttached s); reflexivity.
Qed.

Lemma run_timers_fold_unified s :
  run_timers s =
  fold_left (λ st b, features_callback b st) (timers s) (set_timers [] s).
Proof.
  unfold run_timers. remember (timers s) as q eqn:Hq. symmetry in Hq.
  revert s Hq. induction q as [| b q IH]; intros s Hq.
  - simpl. rewrite <- Hq. symmetry. apply set_timers_same_unified.
  - change (length (b :: q)) with (S (length q)).
    rewrite Nat.iter_succ_r.
    assert (tick s = set_timers q (features_callback b s)) as ->
      by (unfold tick; rewrite Hq; apply features_callback_set_timers_unified).
    rewrite IH by reflexivity. cbn [fold_left]. f_equal.
    symmetry. apply (features_callback_set_timers_unified b [] s).
Qed.

Lemma fold_callbacks_inv q s :
  listeners_inv s →
  let s' := fold_left (λ st b, features_callback b st) q s in
  listeners_inv s' ∧ opened s' = opened s ∧ alwaysOpen s' = alwaysOpen s ∧
  timers s' = timers s.
Proof.
  revert s. induction q as [| b q IH]; intros s Hinv; simpl; [auto |].
  destruct (features_callback_inv b s Hinv) as [Hinv' _].
  destruct (features_callback_flags b s) as (Ho & Ha & Ht).
  destruct (IH _ Hinv') as (H1 & H2 & H3 & H4).
  rewrite H2, H3, H4, Ho, Ha, Ht. auto.
Qed.

(** Once the waiting callbacks and a last one for [show] have run, the
    listeners are attached exactly when that [show] is true. *)
Lemma fold_callbacks_last q (show : bool) s :
  listeners_inv s →
  let s' := fold_left (λ st b, features_callback b st) (q ++ [show]) s in
  (outside_listeners s' ≠ [] ↔ show = true) ∧
  (escape_listener_attached s' ↔ show = true) ∧
  opened s' = opened s ∧ alwaysOpen s' = alwaysOpen s ∧ timers s' = timers s.
Proof.
  intros Hinv. rewrite fold_left_app. simpl.
  destruct (fold_callbacks_inv q s Hinv) as (Hq & Ho & Ha & Ht).
  set (sq := fold_left (λ st b, features_callback b st) q s) in *.
  destruct (features_callback_inv show sq Hq) as [Hinv' Hflag].
  destruct (features_callback_flags show sq) as (Ho' & Ha' & Ht').
  rewrite Ho', Ha', Ht', Ho, Ha, Ht.
  split; [| split; [apply features_callback_escape | auto]].
  unfold listeners_inv in Hinv'. rewrite Hflag in Hinv'. unfold outside_listeners.
  destruct show.
  - destruct Hinv' as (f & g & _ & _ & -> & _). split; [auto | discriminate].
  - destruct Hinv' as [-> ->]. split; [intros H; destruct H; reflexivity | discriminate].
Qed.

Lemma exec_inv a s : listeners_inv s → listeners_inv (exec a s).
Proof.
  destruct a as [c | c | ids | | | b | z]; simpl.
  - apply listeners_inv_ext; unfold show, handleFeatures, handleZIndex;
      destruct c; simpl; try reflexivity;
      destruct (alwaysOpen s); simpl; try reflexivity;
      destruct (lt _ _); reflexivity.
  - apply listeners_inv_ext; destruct c; reflexivity.
  - apply listeners_inv_ext; reflexivity.
  - apply listeners_inv_ext; reflexivity.
  - unfold tick. destruct (timers s) as [| b q]; [auto |].
    intros H. apply features_callback_inv.
    revert H. apply listeners_inv_ext; reflexivity.
  - apply listeners_inv_ext; reflexivity.
  - apply listeners_inv_ext; reflexivity.
Qed.

(** Every state an instance can be in satisfies the invariant. *)
Lemma reachable_inv s : reachable s → listeners_inv s.
Proof.
  intros (z & h & acts & ->). unfold run.
  induction acts as [| a acts IH] using rev_ind.
  - simpl. split; reflexivity.
  - rewrite fold_left_app. simpl. apply exec_inv, IH.
Qed.

(** What [show], not cancelled, changes among the fields that matter for
    the listeners. *)
Lemma show_fields s :
  let s' := set_timers [] (show false s) in
  timers (show false s) = timers s ++ [negb (alwaysOpen s)] ∧
  opened s' = true ∧ alwaysOpen s' = alwaysOpen s ∧
  _listenersAttached s' = _listenersAttached s ∧
  _preventCloseOnOutsideEvent s' = _preventCloseOnOutsideEvent s ∧
  _onCaptureOverlayActionEvent s' = _onCaptureOverlayActionEvent s ∧
  this_listeners s' = this_listeners s ∧
  documentElement_listeners s' = documentElement_listeners s.
Proof.
  unfold show, handleFeatures, handleZIndex; cbn [negb].
  change (alwaysOpen (showItem (dispatchEvent "mx-overlay-before-shown" s)))
    with (alwaysOpen s).
  destruct (alwaysOpen s) eqn:E; cbn [negb]; [repeat split; exact E |].
  match goal with |- context [if ?c then _ else _] => destruct c end;
    repeat split; exact E.
Qed.

(** C1, counterexample. Right after the first [show] the overlay is open
    and not [alwaysOpen], and no listener is attached on any target: the
    callback that attaches them waits in [setTimeout]. *)
Lemma C1_open_without_listeners :
  let s := show false (init "" true) in
  reachable s ∧ opened s = true ∧ alwaysOpen s = false ∧
  outside_listeners s = [] ∧ document_listeners s = [] ∧ timers s = [true].
Proof.
  cbv zeta. split; [| repeat split].
  exists "", true, [Show false]. reflexivity.
Qed.

(** The handlers keep their closures: only the set-up assigns them. *)
Lemma handlers_coded_ext s s' :
  _preventCloseOnOutsideEvent s' = _preventCloseOnOutsideEvent s →
  _onCaptureOverlayActionEvent s' = _onCaptureOverlayActionEvent s →
  handlers_coded s → handlers_coded s'.
Proof. unfold handlers_coded. intros -> ->. auto. Qed.

Lemma features_callback_coded (show : bool) s :
  handlers_coded s → handlers_coded (features_callback show s).
Proof.
  intros Hc. unfold features_callback.
  assert (handlers_coded (handleHidesOnOutsideEsc show s)) as Hc1
    by (revert Hc; apply handlers_coded_ext; destruct show; reflexivity).
  set (s1 := handleHidesOnOutsideEsc show s) in *. clearbody s1.
  unfold handleHidesOnOutsideClick. destruct show.
  - destruct (_listenersAttached s1); [exact Hc1 |].
    set (f := Dom.mkFn (next_fn s1) Dom.PreventClose).
    set (g := Dom.mkFn (S (next_fn s1)) Dom.OnCapture).
    set (s2 := set_action_handlers (Some f) (Some g) (S (S (next_fn s1))) s1).
    destruct (handleOverlayListeners_fields true s2) as (_ & Hp & Hg & _).
    unfold handlers_coded. rewrite Hp, Hg.
    change (_preventCloseOnOutsideEvent s2) with (Some f).
    change (_onCaptureOverlayActionEvent s2) with (Some g).
    split; intros x Hx; injection Hx as <-; reflexivity.
  - destruct (handleOverlayListeners_fields false s1) as (_ & Hp & Hg & _).
    revert Hc1. apply handlers_coded_ext; assumption.
Qed.

Lemma exec_coded a s : handlers_coded s → handlers_coded (exec a s).
Proof.
  destruct a as [c | c | ids | | | b | z]; simpl.
  - apply handlers_coded_ext; unfold show, handleFeatures, handleZIndex;
      destruct c; simpl; try reflexivity;
      destruct (alwaysOpen s); simpl; try reflexivity;
      destruct (lt _ _); reflexivity.
  - apply handlers_coded_ext; destruct c; reflexivity.
  - apply handlers_coded_ext; reflexivity.
  - apply handlers_coded_ext; reflexivity.
  - unfold tick. destruct (timers s) as [| b q]; [auto |].
    intros H. apply features_callback_coded.
    revert H. apply handlers_coded_ext; reflexivity.
  - apply handlers_coded_ext; reflexivity.
  - apply handlers_coded_ext; reflexivity.
Qed.

Lemma reachable_coded s : reachable s → handlers_coded s.
Proof.
  intros (z & h & acts & ->). unfold run.
  induction acts as [| a acts IH] using rev_ind.
  - simpl. split; intros x Hx; discriminate Hx.
  - rewrite fold_left_app. simpl. apply exec_coded, IH.
Qed.

(** With the invariant, [_listenersAttached] decides between the two
    pictures of the listener lists. *)
Lemma attached_iff_flag s :
  listeners_inv s → handlers_coded s →
  (outside_listeners_attached s ↔ _listenersAttached s = true) ∧
  (outside_listeners_detached s ↔ _listenersAttached s = false).
Proof.
  unfold listeners_inv, outside_listeners_attached, outside_listeners_detached.
  intros Hinv [Hcf Hcg]. destruct (_listenersAttached s).
  - destruct Hinv as (f & g & Hf & Hg & Ht & Hd). split; split.
    + reflexivity.
    + intros _. exists f, g. repeat split; auto.
    + intros [Ht' _]. rewrite Ht in Ht'. discriminate Ht'.
    + discriminate.
  - destruct Hinv as [Ht Hd]. split; split.
    + intros (f & g & _ & _ & _ & _ & Ht' & _). rewrite Ht in Ht'.
      discriminate Ht'.
    + discriminate.
    + reflexivity.
    + intros _. split; assumption.
Qed.

(** Once the waiting callbacks and a last one for [show] have run, the
    invariant holds with [_listenersAttached] equal to that [show]. *)
Lemma fold_callbacks_last_flag q (show : bool) s :
  listeners_inv s → handlers_coded s →
  let s' := fold_left (λ st b, features_callback b st) (q ++ [show]) s in
  listeners_inv s' ∧ handlers_coded s' ∧ _listenersAttached s' = show.
Proof.
  intros Hinv Hc. cbv zeta. rewrite fold_left_app. cbn [fold_left].
  assert (listeners_inv (fold_left (λ st b, features_callback b st) q s) ∧
          handlers_coded (fold_left (λ st b, features_callback b st) q s))
    as [Hq Hcq].
  { clear show. revert s Hinv Hc. induction q as [| b q IH]; intros s Hinv Hc;
      cbn [fold_left]; [auto |].
    apply IH; [apply features_callback_inv, Hinv
              | apply features_callback_coded, Hc]. }
  destruct (features_callback_inv show _ Hq) as [Hinv' Hflag].
  split; [exact Hinv' |]. split; [| exact Hflag].
  apply features_callback_coded, Hcq.
Qed.

(** With [_listenersAttached] set, the set-up callback leaves the handlers
    and the listeners of the two targets as they are. *)
Lemma features_callback_guard_fields s :
  _listenersAttached s = true →
  this_listeners (features_callback true s) = this_listeners s ∧
  documentElement_listeners (features_callback true s)
    = documentElement_listeners s ∧
  _preventCloseOnOutsideEvent (features_callback true s)
    = _preventCloseOnOutsideEvent s ∧
  _onCaptureOverlayActionEvent (features_callback true s)
    = _onCaptureOverlayActionEvent s.
Proof.
  intros H. unfold features_callback, handleHidesOnOutsideClick.
  change (_listenersAttached (handleHidesOnOutsideEsc true s))
    with (_listenersAttached s). rewrite H. repeat split.
Qed.

(** C1, as amended. In the revision that keeps [_listenersAttached], for
    every reachable state: once the callbacks waiting after a [show] or a
    [hide] that was not cancelled have run, the outside-interaction
    listeners are attached exactly when the overlay is open and not
    [alwaysOpen] -- [this] then holds exactly the [mousedown], [touchstart]
    and [scroll] listeners of the current [_preventCloseOnOutsideEvent] and
    [document.documentElement] exactly those of the current
    [_onCaptureOverlayActionEvent] -- and in the other case neither target
    holds a listener; the Escape listener of the current handler is
    registered in the same case.  A [show] repeated while the
    outside-interaction listeners are attached and no callback waits leaves
    the handlers and the listeners of both targets as they are
    ([alwaysOpen] false) or removes the listeners ([alwaysOpen] true): it
    adds none. *)
Theorem C1_outside_listeners_follow_show_and_hide s :
  reachable s →
  (let s' := run_timers (show false s) in
   (outside_listeners_attached s' ↔ opened s' = true ∧ alwaysOpen s' = false) ∧
   (outside_listeners_detached s' ↔ ¬ (opened s' = true ∧ alwaysOpen s' = false)) ∧
   (escape_listener_attached s' ↔ opened s' = true ∧ alwaysOpen s' = false)) ∧
  (let s' := run_timers (hide false s) in
   (outside_listeners_attached s' ↔ opened s' = true ∧ alwaysOpen s' = false) ∧
   (outside_listeners_detached s' ↔ ¬ (opened s' = true ∧ alwaysOpen s' = false)) ∧
   (escape_listener_attached s' ↔ opened s' = true ∧ alwaysOpen s' = false)) ∧
  (timers s = [] → outside_listeners_attached s →
   let s' := run_timers (show false s) in
   if alwaysOpen s then outside_listeners_detached s'
   else this_listeners s' = this_listeners s ∧
        documentElement_listeners s' = documentElement_listeners s ∧
        _preventCloseOnOutsideEvent s' = _preventCloseOnOutsideEvent s ∧
        _onCaptureOverlayActionEvent s' = _onCaptureOverlayActionEvent s).
Proof.
  intros Hreach. pose proof (reachable_inv s Hreach) as Hinv.
  pose proof (reachable_coded s Hreach) as Hcod.
  destruct (show_fields s) as (Hq & Ho & Ha & Hf & Hp & Hc & Ht & Hd).
  set (base := set_timers [] (show false s)) in *.
  assert (listeners_inv base) as Hbase
    by (revert Hinv; apply listeners_inv_ext; assumption).
  assert (handlers_coded base) as Hcbase
    by (revert Hcod; apply handlers_coded_ext; assumption).
  split; [| split].
  - cbv zeta. rewrite run_timers_fold_unified, Hq. fold base.
    destruct (fold_callbacks_last (timers s) (negb (alwaysOpen s)) base Hbase)
      as (_ & Hesc & Ho' & Ha' & _).
    destruct (fold_callbacks_last_flag (timers s) (negb (alwaysOpen s)) base
                Hbase Hcbase) as (Hinv' & Hcod' & Hflag).
    destruct (attached_iff_flag _ Hinv' Hcod') as [Hatt Hdet].
    rewrite Hatt, Hdet, Hesc, Hflag, Ho', Ha', Ho, Ha.
    destruct (alwaysOpen s); simpl; intuition congruence.
  - cbv zeta. rewrite run_timers_fold_unified.
    change (timers (hide false s)) with (timers s ++ [false]).
    set (hbase := set_timers [] (hide false s)).
    assert (listeners_inv hbase) as Hhbase
      by (revert Hinv; apply listeners_inv_ext; reflexivity).
    assert (handlers_coded hbase) as Hchbase
      by (revert Hcod; apply handlers_coded_ext; reflexivity).
    destruct (fold_callbacks_last (timers s) false hbase Hhbase)
      as (_ & Hesc & Ho' & _).
    destruct (fold_callbacks_last_flag (timers s) false hbase Hhbase Hchbase)
      as (Hinv' & Hcod' & Hflag).
    destruct (attached_iff_flag _ Hinv' Hcod') as [Hatt Hdet].
    rewrite Hatt, Hdet, Hesc, Hflag, Ho'. change (opened hbase) with false.
    intuition congruence.
  - intros Hempty Hatt. cbv zeta.
    rewrite run_timers_fold_unified, Hq, Hempty. fold base.
    cbn [app fold_left].
    destruct (alwaysOpen s); cbn [negb].
    + destruct (features_callback_inv false base Hbase) as [Hinv' Hflag].
      unfold listeners_inv in Hinv'. rewrite Hflag in Hinv'. exact Hinv'.
    + assert (_listenersAttached base = true) as Hflag.
      { rewrite Hf. apply (attached_iff_flag s Hinv Hcod). exact Hatt. }
      destruct (features_callback_guard_fields base Hflag)
        as (Ht' & Hd' & Hp' & Hc').
      rewrite Ht', Hd', Hp', Hc', Ht, Hd, Hp, Hc. repeat split.
Qed.

Lemma C1_outside_listeners_follow_show_and_hide_witness :
  let s := run [Show false; Tick] (init "" true) in
  reachable s ∧ timers s = [] ∧ outside_listeners_attached s ∧
  (outside_listeners_attached (run_timers (show false s)) ↔
     opened (run_timers (show false s)) = true ∧
     alwaysOpen (run_timers (show false s)) = false) ∧
  this_listeners (run_timers (show false s)) = this_listeners s ∧
  documentElement_listeners (run_timers (show false s))
    = documentElement_listeners s.
Proof.
  cbv zeta.
  assert (reachable (run [Show false; Tick] (init "" true))) as Hr
    by (exists "", true, [Show false; Tick]; reflexivity).
  assert (outside_listeners_attached (run [Show false; Tick] (init "" true)))
    as Hatt.
  { exists (Dom.mkFn 1 Dom.PreventClose), (Dom.mkFn 2 Dom.OnCapture).
    repeat split; vm_compute; reflexivity. }
  destruct (C1_outside_listeners_follow_show_and_hide _ Hr)
    as ((Hshow & _) & _ & Hre).
  split; [exact Hr |]. split; [vm_compute; reflexivity |].
  split; [exact Hatt |]. split; [exact Hshow |].
  assert (timers (run [Show false; Tick] (init "" true)) = []) as Hno
    by (vm_compute; reflexivity).
  specialize (Hre Hno Hatt). cbv zeta in Hre.
  assert (alwaysOpen (run [Show false; Tick] (init "" true)) = false) as Ha
    by (vm_compute; reflexivity).
  rewrite Ha in Hre. destruct Hre as (Ht & Hd & _). split; assumption.
Defined.

(** The Escape listener has no such guard: a second [show] registers a
    second [keyup] listener, and [hide] removes only the latest. *)
Lemma second_show_adds_escape_listener :
  let s1 := run [Show false; Tick] (init "" true) in
  let s2 := run [Show false; Tick] s1 in
  let s3 := run [Hide false; Tick] s2 in
  length (document_listeners s1) = 1 ∧ length (document_listeners s2) = 2 ∧
  length (outside_listeners s1) = 6 ∧ length (outside_listeners s2) = 6 ∧
  opened s3 = false ∧ length (document_listeners s3) = 1 ∧
  outside_listeners s3 = [].
Proof. vm_compute. repeat split. Qed.

End ActionEvents.

(** In src/overlay-mixin.ts nothing guards the set-up: a second [show]
    registers every listener a second time, with new function objects. *)
Lemma second_show_adds_listeners_in_first_revision :
  let s1 := MxOverlay.run [MxOverlay.Show false; MxOverlay.Tick] (MxOverlay.init "" true) in
  let s2 := MxOverlay.run [MxOverlay.Show false; MxOverlay.Tick] s1 in
  length (MxOverlay.this_listeners s1) = 2 ∧
  length (MxOverlay.documentElement_listeners s1) = 2 ∧
  length (MxOverlay.document_listeners s1) = 1 ∧
  length (MxOverlay.this_listeners s2) = 4 ∧
  length (MxOverlay.documentElement_listeners s2) = 4 ∧
  length (MxOverlay.document_listeners s2) = 2.
Proof. vm_compute. repeat split. Qed.

(** * Further properties of src/overlay-mixin.ts *)

(** ** The containment check and the ignore list *)

Section ContainmentMore.
Import MxOverlay.

Lemma scan_path_spec (ignore : gset string) path :
  scan_path ignore path = true ↔
  ∃ element, In element path ∧ Dom.id element ≠ "" ∧ Dom.id element ∈ ignore.
Proof.
  induction path as [| e path IH]; simpl.
  - split; [discriminate | intros (x & [] & _)].
  - unfold truthy at 1. destruct (String.eqb_spec (Dom.id e) "") as [He | He]; simpl.
    + rewrite IH. split.
      * intros (x & Hin & H). exists x. auto.
      * intros (x & [<- | Hin] & Hne & Hreg); [contradiction | eauto].
    + case_bool_decide as Hreg.
      * split; [| reflexivity]. intros _. exists e. auto.
      * rewrite IH. split.
        -- intros (x & Hin & H). exists x. auto.
        -- intros (x & [<- | Hin] & Hne & Hx); [contradiction | eauto].
Qed.

Lemma size_pos_nonempty (X : gset string) : bool_decide (0 < size X) = true ↔ X ≠ ∅.
Proof.
  rewrite bool_decide_eq_true. split.
  - intros H ->. rewrite size_empty in H. lia.
  - intros H. destruct (size X) eqn:E; [| lia].
    apply size_empty_inv in E. apply leibniz_equiv in E. contradiction.
Qed.

(** X1. [isElementContained] answers true exactly when the event has a
    target and the container is one of the proper ancestors of that target;
    an event without a target, a target without a parent and the container
    itself all give false. *)
Theorem isElementContained_iff_descendant parent event :
  isElementContained parent event = true ↔
  ∃ t, Dom.target event = Some t ∧ In parent (Dom.ancestors t).
Proof. apply isElementContained_spec. Qed.

(** X2. The three outcomes of [isElementAllowed].  It throws exactly when
    some identifier is registered and the event has no [path].  Otherwise it
    returns true exactly when the path holds an element whose non-empty
    identifier is registered or the target lies inside the container, and
    false in every other case. *)
Theorem isElementAllowed_outcomes s parent event :
  let throws := _overlayToIgnore s ≠ ∅ ∧ Dom.path event = None in
  let exempt := ∃ path element, Dom.path event = Some path ∧ In element path ∧
                  Dom.id element ≠ "" ∧ Dom.id element ∈ _overlayToIgnore s in
  let inside := ∃ t, Dom.target event = Some t ∧ In parent (Dom.ancestors t) in
  (isElementAllowed s parent event = Throw TypeError ↔ throws) ∧
  (isElementAllowed s parent event = Normal true ↔ ¬ throws ∧ (exempt ∨ inside)) ∧
  (isElementAllowed s parent event = Normal false ↔ ¬ throws ∧ ¬ exempt ∧ ¬ inside).
Proof.
  cbv zeta. unfold isElementAllowed.
  pose proof (size_pos_nonempty (_overlayToIgnore s)) as Hsize.
  pose proof (isElementContained_spec parent event) as Hin.
  destruct (bool_decide (0 < size (_overlayToIgnore s))) eqn:Hpos.
  - assert (_overlayToIgnore s ≠ ∅) as Hne by (apply Hsize; reflexivity).
    destruct (Dom.path event) as [path |] eqn:Hp.
    + pose proof (scan_path_spec (_overlayToIgnore s) path) as Hscan.
      assert ((∃ path0 element, Some path = Some path0 ∧ In element path0 ∧
                 Dom.id element ≠ "" ∧ Dom.id element ∈ _overlayToIgnore s)
              ↔ scan_path (_overlayToIgnore s) path = true) as Hex.
      { rewrite Hscan. split.
        - intros (p0 & e & [= <-] & H). eauto.
        - intros (e & H). eauto. }
      destruct (scan_path (_overlayToIgnore s) path);
        [| destruct (isElementContained parent event)].
      * split; [| split].
        -- split; [discriminate | intros [_ [=]]].
        -- split; [| reflexivity]. intros _. split; [intros [_ [=]] |].
           left. apply Hex. reflexivity.
        -- split; [discriminate |]. intros (_ & Hno & _). exfalso.
           apply Hno, Hex. reflexivity.
      * split; [| split].
        -- split; [discriminate | intros [_ [=]]].
        -- split; [| reflexivity]. intros _. split; [intros [_ [=]] |].
           right. apply Hin. reflexivity.
        -- split; [discriminate |]. intros (_ & _ & Hno). exfalso.
           apply Hno, Hin. reflexivity.
      * split; [| split].
        -- split; [discriminate | intros [_ [=]]].
        -- split; [discriminate |]. intros [_ [H | H]].
           ++ apply Hex in H. discriminate.
           ++ apply Hin in H. discriminate.
        -- split; [| reflexivity]. intros _. split; [intros [_ [=]] |].
           split; [intros H; apply Hex in H; discriminate
                  | intros H; apply Hin in H; discriminate].
    + split; [| split].
      * split; [auto | reflexivity].
      * split; [discriminate | intros [H _]; destruct H; auto].
      * split; [discriminate | intros [H _]; destruct H; auto].
  - assert (_overlayToIgnore s = ∅) as Hempty.
    { destruct (decide (_overlayToIgnore s = ∅)) as [H | H]; [exact H |].
      apply Hsize in H. discriminate. }
    assert (¬ (∃ path element, Dom.path event = Some path ∧ In element path ∧
                 Dom.id element ≠ "" ∧ Dom.id element ∈ _overlayToIgnore s))
      as Hnoex.
    { intros (p0 & e & _ & _ & _ & H). rewrite Hempty in H.
      revert H. apply not_elem_of_empty. }
    destruct (isElementContained parent event).
    + split; [| split].
      * split; [discriminate | intros [H _]; contradiction].
      * split; [| reflexivity]. intros _. split; [intros [H _]; contradiction |].
        right. apply Hin. reflexivity.
      * split; [discriminate |]. intros (_ & _ & Hno). exfalso.
        apply Hno, Hin. reflexivity.
    + split; [| split].
      * split; [discriminate | intros [H _]; contradiction].
      * split; [discriminate |]. intros [_ [H | H]]; [contradiction |].
        apply Hin in H. discriminate.
      * split; [| reflexivity]. intros _. split; [intros [H _]; contradiction |].
        split; [exact Hnoex | intros H; apply Hin in H; discriminate].
Qed.

Lemma overlayToIgnore_fold_spec (ids : list string) (X : gset string) i :
  i ∈ fold_left (λ X id, if truthy id then {[id]} ∪ X else X) ids X ↔
  i ∈ X ∨ (In i ids ∧ i ≠ "").
Proof.
  revert X. induction ids as [| a ids IH]; intros X; simpl.
  - split; [auto | intros [H | [[] _]]; exact H].
  - rewrite IH. unfold truthy.
    destruct (String.eqb_spec a "") as [-> | Ha]; simpl.
    + split.
      * intros [H | [H ?]]; auto.
      * intros [H | [[<- | H] Hne]]; auto. contradiction.
    + rewrite elem_of_union, elem_of_singleton. split.
      * intros [[-> | H] | [H ?]]; auto.
      * intros [H | [[<- | H] Hne]]; auto.
Qed.

Lemma overlayToIgnore_elem ids s i :
  i ∈ _overlayToIgnore (overlayToIgnore ids s) ↔
  i ∈ _overlayToIgnore s ∨ (In i ids ∧ i ≠ "").
Proof. apply overlayToIgnore_fold_spec. Qed.

(** X3. After [overlayToIgnore(...ids)] the set holds exactly what it held
    before and the non-empty identifiers among [ids]: nothing is ever
    removed, and the empty string is never added. *)
Theorem overlayToIgnore_membership ids s i :
  i ∈ _overlayToIgnore (overlayToIgnore ids s) ↔
  i ∈ _overlayToIgnore s ∨ (In i ids ∧ i ≠ "").
Proof. apply overlayToIgnore_elem. Qed.

(** X4. Registrations commute and repeat without effect: two calls of
    [overlayToIgnore] in either order give the same instance, and a call
    repeated with the same identifiers changes nothing more. *)
Theorem overlayToIgnore_order_and_repeat a b s :
  overlayToIgnore a (overlayToIgnore b s) = overlayToIgnore b (overlayToIgnore a s) ∧
  overlayToIgnore a (overlayToIgnore a s) = overlayToIgnore a s.
Proof.
  assert (∀ X Y : gset string,
            X = Y → set_overlayToIgnore X s = set_overlayToIgnore Y s) as Hcong
    by (intros X Y ->; reflexivity).
  split.
  - apply (Hcong (_overlayToIgnore (overlayToIgnore a (overlayToIgnore b s)))
                 (_overlayToIgnore (overlayToIgnore b (overlayToIgnore a s)))).
    apply set_eq. intros i. rewrite !overlayToIgnore_elem. tauto.
  - apply (Hcong (_overlayToIgnore (overlayToIgnore a (overlayToIgnore a s)))
                 (_overlayToIgnore (overlayToIgnore a s))).
    apply set_eq. intros i. rewrite !overlayToIgnore_elem. tauto.
Qed.

End ContainmentMore.

(** ** The z-index, the visibility flags and the event log *)

Section LifecycleMore.
Import MxOverlay MxOverlayShape.

Lemma floor_reads_as_floor :
  lt (Number (toString _overlayMinZIndex)) (Num _overlayMinZIndex) = false.
Proof. vm_compute. reflexivity. Qed.

Lemma shown_zIndex_not_below_floor s :
  alwaysOpen s = false →
  lt (Number (style_zIndex (show false s))) (Num _overlayMinZIndex) = false.
Proof.
  intros Ha. destruct (show_zIndex s Ha) as [-> _].
  destruct (lt (Number (style_zIndex s)) (Num _overlayMinZIndex)) eqn:E;
    [apply floor_reads_as_floor | exact E].
Qed.

(** X5. After a [show] that was not cancelled, with [alwaysOpen] false, the
    z-index never reads as a number below the floor: it is the floor, or it
    was not below the floor (or not a number) before. *)
Theorem zIndex_while_shown_not_below_floor s :
  alwaysOpen s = false →
  lt (Number (style_zIndex (show false s))) (Num _overlayMinZIndex) = false ∧
  (style_zIndex (show false s) = toString _overlayMinZIndex ∨
   style_zIndex (show false s) = style_zIndex s).
Proof.
  intros Ha. split; [apply shown_zIndex_not_below_floor, Ha |].
  destruct (show_zIndex s Ha) as [-> _].
  destruct (lt _ _); auto.
Qed.

Lemma zIndex_while_shown_not_below_floor_witness :
  style_zIndex (show false (init "5" true)) = "1000" ∧
  lt (Number (style_zIndex (show false (init "5" true)))) (Num _overlayMinZIndex)
    = false.
Proof.
  destruct (zIndex_while_shown_not_below_floor (init "5" true) eq_refl) as [H _].
  split; [reflexivity | exact H].
Defined.

(** X6. A second [show] while the overlay is shown records the z-index the
    first one left, not the original: the [hide] that follows restores the
    value of the shown overlay (the floor, when the original was below
    it). *)
Theorem repeated_show_forgets_original_zIndex s :
  alwaysOpen s = false →
  style_zIndex (hide false (show false (show false s)))
    = style_zIndex (show false s) ∧
  (lt (Number (style_zIndex s)) (Num _overlayMinZIndex) = true →
   style_zIndex (hide false (show false (show false s))) = "1000").
Proof.
  intros Ha.
  assert (alwaysOpen (show false s) = false) as Ha1.
  { unfold show, handleFeatures, handleZIndex; simpl. rewrite Ha; simpl.
    destruct (lt _ _); exact Ha. }
  assert (style_zIndex (hide false (show false (show false s)))
          = style_zIndex (show false s)) as Hround.
  { rewrite hide_zIndex.
    destruct (show_zIndex (show false s) Ha1) as [-> ->].
    rewrite (shown_zIndex_not_below_floor s Ha). reflexivity. }
  split; [exact Hround |].
  intros Hlt. rewrite Hround. apply show_elevates_below_floor; assumption.
Qed.

Lemma repeated_show_forgets_original_zIndex_witness :
  style_zIndex (init "5" true) = "5" ∧
  style_zIndex (hide false (show false (show false (init "5" true)))) = "1000".
Proof.
  split; [reflexivity |].
  apply (repeated_show_forgets_original_zIndex (init "5" true)); reflexivity.
Defined.

Lemma last_completion_snoc log name :
  last_completion (log ++ [name]) =
  if String.eqb name "mx-overlay-shown" then Some true
  else if String.eqb name "overlay-hidden" then Some false
  else last_completion log.
Proof. unfold last_completion. rewrite fold_left_app. reflexivity. Qed.

Lemma features_callback_visibility b s :
  opened (features_callback b s) = opened s ∧
  hidden (features_callback b s) = hidden s ∧
  dispatched (features_callback b s) = dispatched s.
Proof. destruct b; repeat split. Qed.

(** X7. [opened] and [hidden] follow the completion events: in every state
    an instance reaches through its methods and timers, if neither
    [mx-overlay-shown] nor [overlay-hidden] was dispatched yet the overlay
    is closed and [hidden] is as the element started; otherwise [opened] is
    true exactly when the last of the two is [mx-overlay-shown], and
    [hidden] is its negation. *)
Theorem visibility_follows_last_completion z h acts :
  let s := run acts (init z h) in
  match last_completion (dispatched s) with
  | None => opened s = false ∧ hidden s = h
  | Some b => opened s = b ∧ hidden s = negb b
  end.
Proof.
  unfold run. induction acts as [| a acts IH] using rev_ind.
  - simpl. auto.
  - rewrite fold_left_app. cbn [fold_left]. cbv zeta in IH.
    set (s := fold_left (λ st a, exec a st) acts (init z h)) in *.
    destruct a as [c | c | ids | | | b | v]; cbn [exec].
    + destruct c.
      * change (dispatched (show true s))
          with (dispatched s ++ ["mx-overlay-before-shown"]).
        rewrite last_completion_snoc. exact IH.
      * assert (dispatched (show false s)
                = (dispatched s ++ ["mx-overlay-before-shown"])
                    ++ ["mx-overlay-shown"]) as ->
          by (unfold show, handleFeatures, handleZIndex; simpl;
              destruct (negb _); simpl; [destruct (lt _ _) |]; reflexivity).
        rewrite last_completion_snoc. simpl.
        unfold show, handleFeatures, handleZIndex; simpl.
        destruct (negb _); simpl; [destruct (lt _ _) |]; auto.
    + destruct c.
      * change (dispatched (hide true s))
          with (dispatched s ++ ["overlay-before-hidden"]).
        rewrite last_completion_snoc. exact IH.
      * change (dispatched (hide false s))
          with ((dispatched s ++ ["overlay-before-hidden"]) ++ ["overlay-hidden"]).
        rewrite last_completion_snoc. simpl. auto.
    + exact IH.
    + exact IH.
    + unfold tick. destruct (timers s) as [| t q]; [exact IH |].
      destruct (features_callback_visibility t (set_timers q s)) as (-> & -> & ->).
      exact IH.
    + exact IH.
    + exact IH.
Qed.

(** How the comparison with the floor reads some z-index texts: numeric
    literals with an exponent, a fraction, a radix prefix or white space
    around them are numbers; a value that rounds to the floor is not below
    it; keywords and broken literals are NaN. *)
Lemma Number_below_floor_samples :
  lt (Number "-1e+22") (Num _overlayMinZIndex) = true ∧
  lt (Number "999.5") (Num _overlayMinZIndex) = true ∧
  lt (Number " 12 ") (Num _overlayMinZIndex) = true ∧
  lt (Number "0x3E7") (Num _overlayMinZIndex) = true ∧
  lt (Number "-Infinity") (Num _overlayMinZIndex) = true ∧
  lt (Number "0x3E8") (Num _overlayMinZIndex) = false ∧
  lt (Number "1e3") (Num _overlayMinZIndex) = false ∧
  lt (Number "999.99999999999999999") (Num _overlayMinZIndex) = false ∧
  lt (Number "Infinity") (Num _overlayMinZIndex) = false ∧
  lt (Number "auto") (Num _overlayMinZIndex) = false ∧
  lt (Number "1e") (Num _overlayMinZIndex) = false ∧
  lt (Number "-0x10") (Num _overlayMinZIndex) = false.
Proof. vm_compute. repeat split. Qed.

Lemma show_elevates_exponent_literal :
  style_zIndex (show false (init "-1e+22" true)) = "1000".
Proof. vm_compute. reflexivity. Qed.



End LifecycleMore.

(** ** The listeners the set-up registers and the tear-down leaves behind *)

Section ListenerShape.
Import MxOverlay MxOverlayShape.
#[local] Existing Instance Dom.Listener_eq_dec.

Lemma addEventListener_has ty f cap ls :
  Dom.mkListener ty f cap ∈ Dom.addEventListener ty (Some f) cap ls.
Proof.
  unfold Dom.addEventListener. case_decide; [assumption |].
  apply elem_of_app. right. apply list_elem_of_singleton. reflexivity.
Qed.

Lemma addEventListener_keeps ty cb cap ls l :
  l ∈ ls → l ∈ Dom.addEventListener ty cb cap ls.
Proof.
  intros H. destruct cb as [f |]; simpl; [| exact H].
  case_decide; [exact H |]. apply elem_of_app. left. exact H.
Qed.

Lemma addEventListener_append ty f cap ls :
  Dom.mkListener ty f cap ∉ ls →
  Dom.addEventListener ty (Some f) cap ls = ls ++ [Dom.mkListener ty f cap].
Proof. intros H. unfold Dom.addEventListener. rewrite decide_False; auto. Qed.

Lemma removeEventListener_keeps ty cb cap ls l :
  l ∈ ls → Some (Dom.callback l) ≠ cb → l ∈ Dom.removeEventListener ty cb cap ls.
Proof.
  intros Hin Hne. destruct cb as [f |]; simpl; [| exact Hin].
  apply list_elem_of_filter. split; [| exact Hin].
  intros ->. apply Hne. reflexivity.
Qed.

Lemma partner_filter x bound ls :
  Forall (inside_listener bound) ls →
  Dom.fn_code (Dom.callback x) = Dom.PreventClose → Dom.capture x = true →
  filter (λ l, l ≠ partner x) (map partner ls)
  = map partner (filter (λ l, l ≠ x) ls).
Proof.
  intros Hall Hcode Hcap. induction Hall as [| l ls Hl Hall IH]; [reflexivity |].
  cbn [map]. rewrite !filter_cons, IH.
  destruct Hl as (_ & Hlcap & Hlcode & _).
  destruct (decide (l ≠ x)) as [Hne | Heq].
  - rewrite decide_True; [reflexivity |].
    intros Hp. apply Hne. unfold partner in Hp. injection Hp as Hty Hid.
    destruct l as [lty [lid lcode] lcap], x as [xty [xid xcode] xcap].
    simpl in *. congruence.
  - rewrite decide_False; [reflexivity |].
    intros Hp. apply Hp. apply dec_stable in Heq. rewrite Heq. reflexivity.
Qed.

Lemma Forall_filter_keeps {A} (P Q : A → Prop) `{∀ x, Decision (Q x)} (ls : list A) :
  Forall P ls → Forall P (filter Q ls).
Proof.
  intros Hall. apply Forall_forall. intros x Hx.
  apply list_elem_of_filter in Hx. destruct Hx as [_ Hx].
  rewrite Forall_forall in Hall. auto.
Qed.

Lemma fresh_not_registered (P : Dom.Listener → Prop) (bound : nat)
    (ls : list Dom.Listener) (ty : string) (f : Dom.Fn) (cap : bool) :
  Forall P ls → (∀ l, P l → Dom.fn_id (Dom.callback l) < bound) →
  (bound ≤ Dom.fn_id f)%nat →
  Dom.mkListener ty f cap ∉ ls.
Proof.
  intros Hall Hbound Hf Hin. rewrite Forall_forall in Hall.
  specialize (Hbound _ (Hall _ Hin)). simpl in Hbound. lia.
Qed.

(** The fields after the set-up callback. *)
Lemma features_callback_true_fields s :
  let n := next_fn s in
  let e := Dom.mkFn n Dom.EscKey in
  let f := Dom.mkFn (S n) Dom.PreventClose in
  let g := Dom.mkFn (S (S n)) Dom.OnCapture in
  let s' := features_callback true s in
  next_fn s' = S (S (S n)) ∧
  _escKeyHandler s' = Some e ∧
  _preventCloseOutsideClick s' = Some f ∧
  _onCaptureHtmlClick s' = Some g ∧
  document_listeners s' =
    Dom.addEventListener "keyup" (Some e) false (document_listeners s) ∧
  this_listeners s' =
    Dom.addEventListener "scroll" (Some f) true
      (Dom.addEventListener "click" (Some f) true (this_listeners s)) ∧
  documentElement_listeners s' =
    Dom.addEventListener "scroll" (Some g) true
      (Dom.addEventListener "click" (Some g) true (documentElement_listeners s)).
Proof. repeat split. Qed.

(** The fields after the tear-down callback. *)
Lemma features_callback_false_fields s :
  let s' := features_callback false s in
  next_fn s' = next_fn s ∧
  _escKeyHandler s' = _escKeyHandler s ∧
  _preventCloseOutsideClick s' = _preventCloseOutsideClick s ∧
  _onCaptureHtmlClick s' = _onCaptureHtmlClick s ∧
  document_listeners s' =
    Dom.removeEventListener "keyup" (_escKeyHandler s) false (document_listeners s) ∧
  this_listeners s' =
    Dom.removeEventListener "scroll" (_preventCloseOutsideClick s) true
      (Dom.removeEventListener "click" (_preventCloseOutsideClick s) true
         (this_listeners s)) ∧
  documentElement_listeners s' =
    Dom.removeEventListener "scroll" (_onCaptureHtmlClick s) true
      (Dom.removeEventListener "click" (_onCaptureHtmlClick s) true
         (documentElement_listeners s)).
Proof. repeat split. Qed.

Lemma inside_listener_mono (a b : nat) l : (a ≤ b)%nat → inside_listener a l → inside_listener b l.
Proof. unfold inside_listener. intros Hle (? & ? & ? & ?). repeat split; auto. lia. Qed.

Lemma escape_listener_mono (a b : nat) l : (a ≤ b)%nat → escape_listener a l → escape_listener b l.
Proof. unfold escape_listener. intros Hle (? & ? & ? & ?). repeat split; auto. lia. Qed.

(** What the set-up callback appends when the lists have the shape the
    class gives them. *)
Lemma features_callback_true_appends s :
  listeners_shape s →
  let s' := features_callback true s in
  document_listeners s' = document_listeners s ++ armed_on_document (next_fn s) ∧
  this_listeners s' = this_listeners s ++ armed_on_this (next_fn s) ∧
  documentElement_listeners s' =
    documentElement_listeners s ++ armed_on_documentElement (next_fn s).
Proof.
  intros (Hthis & Hdoc_el & Hdoc & _ & _).
  destruct (features_callback_true_fields s)
    as (_ & _ & _ & _ & Hd & Ht & Hde).
  cbv zeta in *. rewrite Hd, Ht, Hde. clear Hd Ht Hde.
  set (n := next_fn s) in *.
  assert (∀ ty f cap, (n ≤ Dom.fn_id f)%nat →
            Dom.mkListener ty f cap ∉ this_listeners s) as Hfresh_this.
  { intros ty f cap Hf.
    apply (fresh_not_registered (inside_listener n) n); auto.
    intros l (_ & _ & _ & H). lia. }
  assert (∀ ty f cap, (n ≤ Dom.fn_id f)%nat →
            Dom.mkListener ty f cap ∉ documentElement_listeners s) as Hfresh_de.
  { intros ty f cap Hf Hin. rewrite Hdoc_el in Hin.
    apply list_elem_of_fmap in Hin. destruct Hin as (l & Heq & Hl).
    rewrite Forall_forall in Hthis. destruct (Hthis _ Hl) as (_ & _ & _ & Hb).
    unfold partner in Heq. injection Heq as _ Hid _. subst f. simpl in Hf. lia. }
  assert (∀ ty f cap, (n ≤ Dom.fn_id f)%nat →
            Dom.mkListener ty f cap ∉ document_listeners s) as Hfresh_doc.
  { intros ty f cap Hf.
    apply (fresh_not_registered (escape_listener n) n); auto.
    intros l (_ & _ & _ & H). exact H. }
  split; [| split].
  - apply addEventListener_append, Hfresh_doc. simpl. lia.
  - rewrite (addEventListener_append "click") by (apply Hfresh_this; simpl; lia).
    rewrite (addEventListener_append "scroll").
    + rewrite <- app_assoc. reflexivity.
    + rewrite elem_of_app, list_elem_of_singleton. intros [H | H].
      * revert H. apply Hfresh_this. simpl. lia.
      * discriminate H.
  - rewrite (addEventListener_append "click") by (apply Hfresh_de; simpl; lia).
    rewrite (addEventListener_append "scroll").
    + rewrite <- app_assoc. reflexivity.
    + rewrite elem_of_app, list_elem_of_singleton. intros [H | H].
      * revert H. apply Hfresh_de. simpl. lia.
      * discriminate H.
Qed.

Lemma features_callback_shape b s :
  listeners_shape s → listeners_shape (features_callback b s).
Proof.
  intros Hshape. destruct b.
  - destruct (features_callback_true_appends s Hshape) as (Hd & Ht & Hde).
    destruct (features_callback_true_fields s) as (Hn & He & Hf & Hg & _).
    destruct Hshape as (Hthis & Hdoc_el & Hdoc & _ & _).
    cbv zeta in *. unfold listeners_shape.
    rewrite Hd, Ht, Hde, Hn. set (n := next_fn s) in *.
    split; [| split; [| split; [| split]]].
    + apply Forall_app. split.
      * eapply Forall_impl; [exact Hthis |].
        intros l. apply inside_listener_mono. lia.
      * unfold armed_on_this. repeat constructor; simpl; auto; lia.
    + rewrite map_app, Hdoc_el. reflexivity.
    + apply Forall_app. split.
      * eapply Forall_impl; [exact Hdoc |].
        intros l. apply escape_listener_mono. lia.
      * unfold armed_on_document. repeat constructor; simpl; auto; lia.
    + right. exists (S n). rewrite Hf, Hg. repeat split. lia.
    + right. exists n. rewrite He. split; [reflexivity | lia].
  - destruct (features_callback_false_fields s) as (Hn & He & Hf & Hg & Hd & Ht & Hde).
    destruct Hshape as (Hthis & Hdoc_el & Hdoc & Hpair & Hesc).
    cbv zeta in *. unfold listeners_shape, handlers_paired, escape_handler_known.
    rewrite Hd, Ht, Hde, Hn, He, Hf, Hg.
    split; [| split; [| split; [| split]]]; auto.
    + destruct (_preventCloseOutsideClick s); simpl; [| exact Hthis].
      apply Forall_filter_keeps, Forall_filter_keeps, Hthis.
    + destruct Hpair as [[-> ->] | (m & -> & -> & _)]; [exact Hdoc_el |].
      simpl. rewrite Hdoc_el.
      change (Dom.mkListener "click" (Dom.mkFn (S m) Dom.OnCapture) true)
        with (partner (Dom.mkListener "click" (Dom.mkFn m Dom.PreventClose) true)).
      change (Dom.mkListener "scroll" (Dom.mkFn (S m) Dom.OnCapture) true)
        with (partner (Dom.mkListener "scroll" (Dom.mkFn m Dom.PreventClose) true)).
      rewrite (partner_filter _ (next_fn s)) by (auto; reflexivity).
      rewrite (partner_filter _ (next_fn s));
        [reflexivity | apply Forall_filter_keeps, Hthis | reflexivity | reflexivity].
    + destruct (_escKeyHandler s); simpl; [| exact Hdoc].
      apply Forall_filter_keeps, Hdoc.
Qed.

Lemma listeners_shape_ext s s' :
  next_fn s' = next_fn s →
  _escKeyHandler s' = _escKeyHandler s →
  _preventCloseOutsideClick s' = _preventCloseOutsideClick s →
  _onCaptureHtmlClick s' = _onCaptureHtmlClick s →
  document_listeners s' = document_listeners s →
  this_listeners s' = this_listeners s →
  documentElement_listeners s' = documentElement_listeners s →
  listeners_shape s → listeners_shape s'.
Proof.
  unfold listeners_shape, handlers_paired, escape_handler_known.
  intros -> -> -> -> -> -> ->. auto.
Qed.

Lemma exec_shape a s : listeners_shape s → listeners_shape (exec a s).
Proof.
  destruct a as [c | c | ids | | | b | z]; cbn [exec].
  - apply listeners_shape_ext; unfold show, handleFeatures, handleZIndex;
      destruct c; simpl; try reflexivity;
      destruct (negb _); simpl; try reflexivity;
      destruct (lt _ _); reflexivity.
  - apply listeners_shape_ext; destruct c; reflexivity.
  - apply listeners_shape_ext; reflexivity.
  - apply listeners_shape_ext; reflexivity.
  - unfold tick. destruct (timers s) as [| b q]; [auto |].
    intros H. apply features_callback_shape.
    revert H. apply listeners_shape_ext; reflexivity.
  - apply listeners_shape_ext; reflexivity.
  - apply listeners_shape_ext; reflexivity.
Qed.

(** Every state an instance reaches has listener lists of that shape. *)
Lemma reachable_shape s : reachable s → listeners_shape s.
Proof.
  intros (z & h & acts & ->). unfold run.
  induction acts as [| a acts IH] using rev_ind.
  - unfold listeners_shape. simpl.
    split; [constructor |]. split; [reflexivity |]. split; [constructor |].
    split; left; auto.
  - rewrite fold_left_app. simpl. apply exec_shape, IH.
Qed.

(** X8. Every run of the set-up callback registers five listeners that were
    not registered before, with three function objects made for the
    occasion: one [keyup] listener on the document and a [click] and a
    [scroll] listener on each of [this] and [document.documentElement];
    and for every listener on [this] the root element holds the listener
    made with it, in the same position. *)
Theorem setup_registers_five_new_listeners s :
  reachable s →
  let s' := features_callback true s in
  document_listeners s' = document_listeners s ++ armed_on_document (next_fn s) ∧
  this_listeners s' = this_listeners s ++ armed_on_this (next_fn s) ∧
  documentElement_listeners s' =
    documentElement_listeners s ++ armed_on_documentElement (next_fn s) ∧
  documentElement_listeners s' = map partner (this_listeners s').
Proof.
  intros Hr. pose proof (reachable_shape s Hr) as Hshape.
  destruct (features_callback_true_appends s Hshape) as (Hd & Ht & Hde).
  destruct (features_callback_shape true s Hshape) as (_ & Hp & _).
  cbv zeta. auto.
Qed.

Lemma setup_registers_five_new_listeners_witness :
  let s := run [Show false; Tick] (init "" true) in
  reachable s ∧
  length (this_listeners (features_callback true s)) = 4 ∧
  length (documentElement_listeners (features_callback true s)) = 4 ∧
  length (document_listeners (features_callback true s)) = 2.
Proof.
  cbv zeta.
  assert (reachable (run [Show false; Tick] (init "" true))) as Hr
    by (exists "", true, [Show false; Tick]; reflexivity).
  destruct (setup_registers_five_new_listeners _ Hr) as (Hd & Ht & Hde & _).
  split; [exact Hr |].
  rewrite Hd, Ht, Hde, !length_app. vm_compute. repeat split.
Defined.

End ListenerShape.

Section ListenerLeak.
Import MxOverlay MxOverlayShape.
#[local] Existing Instance Dom.Listener_eq_dec.

Lemma set_timers_frame q x :
  next_fn (set_timers q x) = next_fn x ∧
  _escKeyHandler (set_timers q x) = _escKeyHandler x ∧
  _preventCloseOutsideClick (set_timers q x) = _preventCloseOutsideClick x ∧
  _onCaptureHtmlClick (set_timers q x) = _onCaptureHtmlClick x ∧
  document_listeners (set_timers q x) = document_listeners x ∧
  this_listeners (set_timers q x) = this_listeners x ∧
  documentElement_listeners (set_timers q x) = documentElement_listeners x.
Proof. repeat split. Qed.

Lemma set_timers_timers q x : timers (set_timers q x) = q.
Proof. reflexivity. Qed.

Lemma tick_cases s :
  tick s = s ∨ ∃ b q, tick s = set_timers q (features_callback b s).
Proof.
  unfold tick. destruct (timers s) as [| b q]; [left; reflexivity |].
  right. exists b, q. apply features_callback_set_timers.
Qed.

(** Every operation but a timer leaves the handlers and the listener lists
    alone. *)
Lemma exec_frame a s :
  a ≠ Tick →
  next_fn (exec a s) = next_fn s ∧
  _escKeyHandler (exec a s) = _escKeyHandler s ∧
  _preventCloseOutsideClick (exec a s) = _preventCloseOutsideClick s ∧
  _onCaptureHtmlClick (exec a s) = _onCaptureHtmlClick s ∧
  document_listeners (exec a s) = document_listeners s ∧
  this_listeners (exec a s) = this_listeners s ∧
  documentElement_listeners (exec a s) = documentElement_listeners s.
Proof.
  destruct a as [c | c | ids | | | b | z]; cbn [exec]; intros Hne;
    try contradiction; try (repeat split; fail).
  - unfold show, handleFeatures, handleZIndex.
    destruct c; [repeat split |]. cbn [negb].
    destruct (negb _); [destruct (lt _ _) |]; repeat split.
  - destruct c; repeat split.
Qed.

(** Listeners whose function objects are older than every handler in the
    fields survive the next operation, and the handlers stay younger. *)
Lemma old_listeners_survive (m : nat) a s :
  (m ≤ next_fn s)%nat →
  (∀ f, _escKeyHandler s = Some f → (m ≤ Dom.fn_id f)%nat) →
  (∀ f, _preventCloseOutsideClick s = Some f → (m ≤ Dom.fn_id f)%nat) →
  (∀ f, _onCaptureHtmlClick s = Some f → (m ≤ Dom.fn_id f)%nat) →
  ((m ≤ next_fn (exec a s))%nat ∧
   (∀ f, _escKeyHandler (exec a s) = Some f → (m ≤ Dom.fn_id f)%nat) ∧
   (∀ f, _preventCloseOutsideClick (exec a s) = Some f → (m ≤ Dom.fn_id f)%nat) ∧
   (∀ f, _onCaptureHtmlClick (exec a s) = Some f → (m ≤ Dom.fn_id f)%nat)) ∧
  (∀ l, Dom.fn_id (Dom.callback l) < m →
     (l ∈ document_listeners s → l ∈ document_listeners (exec a s)) ∧
     (l ∈ this_listeners s → l ∈ this_listeners (exec a s)) ∧
     (l ∈ documentElement_listeners s → l ∈ documentElement_listeners (exec a s))).
Proof.
  intros Hn He Hf Hg.
  assert (a ≠ Tick ∨ a = Tick) as [Hne | ->]
    by (destruct a; auto; left; discriminate).
  - destruct (exec_frame a s Hne) as (-> & -> & -> & -> & -> & -> & ->).
    repeat split; auto.
  - cbn [exec]. destruct (tick_cases s) as [-> | (b & q & ->)];
      [repeat split; auto |].
    destruct (set_timers_frame q (features_callback b s))
      as (-> & -> & -> & -> & -> & -> & ->).
    destruct b.
    + destruct (features_callback_true_fields s)
        as (-> & -> & -> & -> & -> & -> & ->).
      split.
      * split; [lia |]. repeat split; intros f [= <-]; simpl; lia.
      * intros l Hl.
        repeat split; intros Hin; repeat apply addEventListener_keeps; exact Hin.
    + destruct (features_callback_false_fields s)
        as (-> & -> & -> & -> & -> & -> & ->).
      split; [auto |].
      intros l Hl.
      assert (∀ cb, (∀ f, cb = Some f → (m ≤ Dom.fn_id f)%nat) →
                Some (Dom.callback l) ≠ cb) as Hold
        by (intros cb Hcb Heq; specialize (Hcb _ (eq_sym Heq)); lia).
      split; [| split]; intros Hin.
      * apply removeEventListener_keeps; auto.
      * apply removeEventListener_keeps; [apply removeEventListener_keeps |]; auto.
      * apply removeEventListener_keeps; [apply removeEventListener_keeps |]; auto.
Qed.

Lemma old_listeners_survive_run (m : nat) acts s :
  (m ≤ next_fn s)%nat →
  (∀ f, _escKeyHandler s = Some f → (m ≤ Dom.fn_id f)%nat) →
  (∀ f, _preventCloseOutsideClick s = Some f → (m ≤ Dom.fn_id f)%nat) →
  (∀ f, _onCaptureHtmlClick s = Some f → (m ≤ Dom.fn_id f)%nat) →
  ∀ l, Dom.fn_id (Dom.callback l) < m →
    (l ∈ document_listeners s → l ∈ document_listeners (run acts s)) ∧
    (l ∈ this_listeners s → l ∈ this_listeners (run acts s)) ∧
    (l ∈ documentElement_listeners s → l ∈ documentElement_listeners (run acts s)).
Proof.
  revert s. induction acts as [| a acts IH]; intros s Hn He Hf Hg l Hl;
    [simpl; auto |].
  destruct (old_listeners_survive m a s Hn He Hf Hg) as [(Hn' & He' & Hf' & Hg') Hkeep].
  destruct (Hkeep l Hl) as (H1 & H2 & H3).
  destruct (IH (exec a s) Hn' He' Hf' Hg' l Hl) as (H4 & H5 & H6).
  change (run (a :: acts) s) with (run acts (exec a s)). auto.
Qed.

(** The listeners of one set-up are registered after it and after a second
    set-up, whose function objects are younger. *)
Lemma two_setups s :
  let n := next_fn s in
  let s2 := features_callback true (features_callback true s) in
  next_fn s2 = 6 + n ∧
  _escKeyHandler s2 = Some (Dom.mkFn (3 + n) Dom.EscKey) ∧
  _preventCloseOutsideClick s2 = Some (Dom.mkFn (4 + n) Dom.PreventClose) ∧
  _onCaptureHtmlClick s2 = Some (Dom.mkFn (5 + n) Dom.OnCapture) ∧
  (∀ l, In l (armed_on_document n) → l ∈ document_listeners s2) ∧
  (∀ l, In l (armed_on_this n) → l ∈ this_listeners s2) ∧
  (∀ l, In l (armed_on_documentElement n) → l ∈ documentElement_listeners s2).
Proof.
  cbv zeta.
  destruct (features_callback_true_fields (features_callback true s))
    as (-> & -> & -> & -> & -> & -> & ->).
  destruct (features_callback_true_fields s)
    as (-> & _ & _ & _ & -> & -> & ->).
  repeat split.
  - intros l [<- | []]. apply addEventListener_keeps, addEventListener_has.
  - intros l [<- | [<- | []]]; do 2 apply addEventListener_keeps.
    + apply addEventListener_keeps, addEventListener_has.
    + apply addEventListener_has.
  - intros l [<- | [<- | []]]; do 2 apply addEventListener_keeps.
    + apply addEventListener_keeps, addEventListener_has.
    + apply addEventListener_has.
Qed.

Lemma old_listeners_survive_timers (n : nat) acts q1 q2 s2 old :
  next_fn s2 = 6 + n →
  _escKeyHandler s2 = Some (Dom.mkFn (3 + n) Dom.EscKey) →
  _preventCloseOutsideClick s2 = Some (Dom.mkFn (4 + n) Dom.PreventClose) →
  _onCaptureHtmlClick s2 = Some (Dom.mkFn (5 + n) Dom.OnCapture) →
  Dom.fn_id (Dom.callback old) < 3 + n →
  let s' := run acts (set_timers q1 (set_timers q2 s2)) in
  (old ∈ document_listeners s2 → old ∈ document_listeners s') ∧
  (old ∈ this_listeners s2 → old ∈ this_listeners s') ∧
  (old ∈ documentElement_listeners s2 → old ∈ documentElement_listeners s').
Proof.
  intros Hn He Hf Hg Hold. cbv zeta.
  destruct (set_timers_frame q2 s2) as (Hn2 & He2 & Hf2 & Hg2 & Hd2 & Ht2 & Hde2).
  destruct (set_timers_frame q1 (set_timers q2 s2))
    as (Hn1 & He1 & Hf1 & Hg1 & Hd1 & Ht1 & Hde1).
  rewrite <- Hd2, <- Ht2, <- Hde2, <- Hd1, <- Ht1, <- Hde1.
  apply (old_listeners_survive_run (3 + n)).
  - rewrite Hn1, Hn2, Hn. lia.
  - rewrite He1, He2, He. intros f [= <-]. simpl. lia.
  - rewrite Hf1, Hf2, Hf. intros f [= <-]. simpl. lia.
  - rewrite Hg1, Hg2, Hg. intros f [= <-]. simpl. lia.
  - exact Hold.
Qed.

(** X9. When the set-up callback runs twice with no tear-down in between
    (two [show] in a row), the five listeners of the first run stay
    registered for good: whatever methods are called and timers run
    afterwards, none of them is removed. *)
Theorem listeners_of_repeated_setup_are_never_removed s q acts :
  timers s = true :: true :: q →
  let s' := run acts (tick (tick s)) in
  (∀ l, In l (armed_on_document (next_fn s)) → l ∈ document_listeners s') ∧
  (∀ l, In l (armed_on_this (next_fn s)) → l ∈ this_listeners s') ∧
  (∀ l, In l (armed_on_documentElement (next_fn s)) →
        l ∈ documentElement_listeners s').
Proof.
  intros Hq. cbv zeta.
  rewrite (tick_cons true (true :: q) s Hq).
  rewrite (tick_cons true q (set_timers (true :: q) (features_callback true s))
             (set_timers_timers _ _)).
  rewrite features_callback_set_timers.
  destruct (two_setups s) as (Hn & He & Hf & Hg & Hd & Ht & Hde).
  pose proof (λ old, old_listeners_survive_timers (next_fn s) acts q (true :: q)
                       _ old Hn He Hf Hg) as Hkeep.
  split; [| split]; intros l Hl.
  - apply Hkeep; [| apply Hd, Hl]. destruct Hl as [<- | []]. simpl. lia.
  - apply Hkeep; [| apply Ht, Hl].
    destruct Hl as [<- | [<- | []]]; simpl; lia.
  - apply Hkeep; [| apply Hde, Hl].
    destruct Hl as [<- | [<- | []]]; simpl; lia.
Qed.

Lemma listeners_of_repeated_setup_are_never_removed_witness :
  let s := run [Show false; Show false] (init "" true) in
  let later := run [Hide false; Tick; Show false; Tick; DisconnectedCallback; Tick]
                 (tick (tick s)) in
  timers s = [true; true] ∧ next_fn s = 0 ∧
  Dom.mkListener "keyup" (Dom.mkFn 0 Dom.EscKey) false ∈ document_listeners later ∧
  Dom.mkListener "click" (Dom.mkFn 1 Dom.PreventClose) true ∈ this_listeners later ∧
  Dom.mkListener "click" (Dom.mkFn 2 Dom.OnCapture) true
    ∈ documentElement_listeners later.
Proof.
  cbv zeta.
  assert (timers (run [Show false; Show false] (init "" true)) = [true; true])
    as Hq by (vm_compute; reflexivity).
  assert (next_fn (run [Show false; Show false] (init "" true)) = 0)
    as Hn by (vm_compute; reflexivity).
  destruct (listeners_of_repeated_setup_are_never_removed
              (run [Show false; Show false] (init "" true)) []
              [Hide false; Tick; Show false; Tick; DisconnectedCallback; Tick]
              Hq) as (Hd & Ht & Hde).
  rewrite Hn in Hd, Ht, Hde.
  split; [exact Hq |]. split; [exact Hn |]. split; [| split].
  - apply Hd. left. reflexivity.
  - apply Ht. left. reflexivity.
  - apply Hde. left. reflexivity.
Defined.

End ListenerLeak.

(** ** Events: what the handlers do when the browser calls them *)

Section Handlers.
Import MxOverlay MxOverlayShape MxOverlayPage.
#[local] Existing Instance Dom.Listener_eq_dec.

Lemma page_eta p : mkPage (host p) (wasClickInside p) (timeouts p) (uncaught p) = p.
Proof. destruct p; reflexivity. Qed.

Lemma filter_none {A} (P : A → Prop) `{∀ x, Decision (P x)} (ls : list A) :
  Forall (λ x, ¬ P x) ls → filter P ls = [].
Proof.
  induction 1 as [| x ls Hx _ IH]; [reflexivity |].
  rewrite filter_cons_False by exact Hx. exact IH.
Qed.

Lemma filter_all {A} (P : A → Prop) `{∀ x, Decision (P x)} (ls : list A) :
  Forall P ls → filter P ls = ls.
Proof.
  induction 1 as [| x ls Hx _ IH]; [reflexivity |].
  rewrite filter_cons_True by exact Hx. rewrite IH. reflexivity.
Qed.

Lemma listeners_for_partner ty bound ls :
  Forall (inside_listener bound) ls →
  listeners_for ty true (map partner ls) = map partner (listeners_for ty true ls).
Proof.
  unfold listeners_for. induction 1 as [| l ls Hl _ IH]; [reflexivity |].
  cbn [map]. rewrite !filter_cons, IH.
  destruct Hl as (_ & Hcap & _ & _).
  destruct (decide (Dom.type l = ty ∧ Dom.capture l = true)) as [Hy | Hn].
  - rewrite decide_True; [reflexivity |]. simpl. tauto.
  - rewrite decide_False; [reflexivity |]. simpl. tauto.
Qed.

(** Which listeners an event invokes when the lists have the shape the
    class gives them: the capturing ones on the root element and on [this],
    and the [keyup] listeners on the document. *)
Lemma invoked_shape doc ev s :
  listeners_shape s →
  let inside := listeners_for (event_type ev) true (this_listeners s) in
  invoked doc ev s =
    map partner (if on_path (documentElement doc) (event ev) then inside else []) ++
    (if on_path (this_element doc) (event ev) then inside else []) ++
    (if is_target (document doc) (event ev)
        || (bubbles ev && on_path (document doc) (event ev))
     then listeners_for (event_type ev) false (document_listeners s) else []) ∧
  Forall (inside_listener (next_fn s)) inside ∧
  Forall (escape_listener (next_fn s))
    (listeners_for (event_type ev) false (document_listeners s)).
Proof.
  intros (Hthis & Hde & Hdoc & _ & _). cbv zeta.
  assert (listeners_for (event_type ev) true (document_listeners s) = []) as Hd_cap.
  { apply filter_none. eapply Forall_impl; [exact Hdoc |].
    intros l (_ & Hcap & _) [_ H]. congruence. }
  assert (listeners_for (event_type ev) false (this_listeners s) = []) as Ht_up.
  { apply filter_none. eapply Forall_impl; [exact Hthis |].
    intros l (_ & Hcap & _) [_ H]. congruence. }
  assert (listeners_for (event_type ev) false (documentElement_listeners s) = [])
    as Hde_up.
  { rewrite Hde. apply filter_none. apply Forall_forall. intros l Hl [_ H].
    apply list_elem_of_fmap in Hl. destruct Hl as (l0 & -> & _). discriminate H. }
  split; [| split].
  - unfold invoked. rewrite Hd_cap, Ht_up, Hde_up, Hde.
    rewrite (listeners_for_partner _ _ _ Hthis).
    destruct (on_path (document doc) (event ev));
      destruct (on_path (documentElement doc) (event ev));
      destruct (on_path (this_element doc) (event ev));
      destruct (is_target (this_element doc) (event ev));
      destruct (is_target (documentElement doc) (event ev));
      destruct (is_target (document doc) (event ev));
      destruct (bubbles ev); cbn [orb andb app]; rewrite ?app_nil_r; reflexivity.
  - apply Forall_filter_keeps, Hthis.
  - apply Forall_filter_keeps, Hdoc.
Qed.

(** What a run of listeners of one kind does to the page. *)
Lemma fold_onCapture ev cancel (ls : list Dom.Listener) p :
  Forall (λ l, Dom.fn_code (Dom.callback l) = Dom.OnCapture) ls →
  fold_left (call_listener ev cancel) ls p =
  mkPage (host p) (wasClickInside p)
    (timeouts p ++ map (λ l, HideIfOutside (scope_of (Dom.callback l)) (event ev)) ls)
    (uncaught p).
Proof.
  intros Hall. revert p. induction Hall as [| l ls Hl _ IH]; intros p.
  - simpl. rewrite app_nil_r. symmetry. apply page_eta.
  - cbn [fold_left map]. rewrite IH. unfold call_listener. rewrite Hl.
    unfold onCaptureHtmlClick. cbn [host wasClickInside timeouts uncaught].
    rewrite <- app_assoc. reflexivity.
Qed.

Lemma call_preventClose ev cancel p l :
  Dom.fn_code (Dom.callback l) = Dom.PreventClose →
  let p' := call_listener ev cancel p l in
  host p' = host p ∧ uncaught p' = uncaught p ∧
  timeouts p' = timeouts p ++ [ResetWasClickInside (scope_of (Dom.callback l))] ∧
  wasClickInside p' = {[scope_of (Dom.callback l)]} ∪ wasClickInside p.
Proof. intros Hl. unfold call_listener. rewrite Hl. repeat split. Qed.

Lemma fold_preventClose ev cancel (ls : list Dom.Listener) p :
  Forall (λ l, Dom.fn_code (Dom.callback l) = Dom.PreventClose) ls →
  let p' := fold_left (call_listener ev cancel) ls p in
  host p' = host p ∧ uncaught p' = uncaught p ∧
  timeouts p' =
    timeouts p ++ map (λ l, ResetWasClickInside (scope_of (Dom.callback l))) ls ∧
  (∀ c, c ∈ wasClickInside p' ↔
        c ∈ wasClickInside p ∨ ∃ l, l ∈ ls ∧ scope_of (Dom.callback l) = c).
Proof.
  intros Hall. revert p. induction Hall as [| l ls Hl _ IH]; intros p; cbv zeta.
  - simpl. rewrite app_nil_r. repeat split; auto.
    intros [H | (l & Hin & _)]; [exact H |]. apply elem_of_nil in Hin. destruct Hin.
  - cbn [fold_left map].
    destruct (call_preventClose ev cancel p l Hl) as (Hh1 & Hu1 & Ht1 & Hc1).
    destruct (IH (call_listener ev cancel p l)) as (Hh & Hu & Ht & Hc).
    cbv zeta in *. rewrite Hh, Hu, Ht, Hh1, Hu1, Ht1, <- app_assoc.
    split; [reflexivity |]. split; [reflexivity |]. split; [reflexivity |].
    intros c. rewrite Hc, Hc1, elem_of_union, elem_of_singleton. split.
    + intros [[-> | H] | (l0 & Hin & Heq)]; auto.
      * right. exists l. split; [apply elem_of_cons; auto | reflexivity].
      * right. exists l0. split; [apply elem_of_cons; auto | exact Heq].
    + intros [H | (l0 & Hin & Heq)]; auto.
      apply elem_of_cons in Hin. destruct Hin as [-> | Hin]; [auto |].
      right. exists l0. auto.
Qed.

Lemma fold_escKey_other ev cancel (ls : list Dom.Listener) p :
  Forall (λ l, Dom.fn_code (Dom.callback l) = Dom.EscKey) ls →
  key ev ≠ Some "Escape" →
  fold_left (call_listener ev cancel) ls p = p.
Proof.
  intros Hall Hkey. revert p. induction Hall as [| l ls Hl _ IH]; intros p;
    [reflexivity |].
  cbn [fold_left]. rewrite <- (IH p) at 2. f_equal.
  unfold call_listener. rewrite Hl. unfold escKeyHandler.
  destruct (key ev) as [name |]; [| reflexivity].
  destruct (String.eqb_spec name "Escape") as [-> | _]; [| reflexivity].
  destruct Hkey. reflexivity.
Qed.

Lemma fold_escKey_escape ev cancel (ls : list Dom.Listener) p :
  Forall (λ l, Dom.fn_code (Dom.callback l) = Dom.EscKey) ls →
  key ev = Some "Escape" → (∀ f, cancel f = false) → ls ≠ [] →
  let p' := fold_left (call_listener ev cancel) ls p in
  opened (host p') = false ∧ hidden (host p') = true ∧
  timeouts p' = timeouts p ∧ wasClickInside p' = wasClickInside p ∧
  uncaught p' = uncaught p.
Proof.
  intros Hall Hkey Hcancel. revert p.
  induction Hall as [| l ls Hl Hall IH]; intros p Hne; [contradiction |].
  cbv zeta. cbn [fold_left].
  assert (call_listener ev cancel p l
          = mkPage (hide false (host p)) (wasClickInside p) (timeouts p) (uncaught p))
    as Hcall.
  { unfold call_listener. rewrite Hl. unfold escKeyHandler.
    rewrite Hkey, Hcancel. reflexivity. }
  rewrite Hcall. destruct ls as [| l' ls'].
  - simpl. repeat split.
  - destruct (IH (mkPage (hide false (host p)) (wasClickInside p) (timeouts p)
                    (uncaught p))) as (H1 & H2 & H3 & H4 & H5); [discriminate |].
    rewrite H1, H2, H3, H4, H5. repeat split.
Qed.

Lemma inside_code bound ls :
  Forall (inside_listener bound) ls →
  Forall (λ l, Dom.fn_code (Dom.callback l) = Dom.PreventClose) ls.
Proof.
  intros Hall. eapply Forall_impl; [exact Hall |].
  intros l (_ & _ & H & _). exact H.
Qed.

Lemma escape_code bound ls :
  Forall (escape_listener bound) ls →
  Forall (λ l, Dom.fn_code (Dom.callback l) = Dom.EscKey) ls.
Proof.
  intros Hall. eapply Forall_impl; [exact Hall |].
  intros l (_ & _ & H & _). exact H.
Qed.

Lemma partner_code ls :
  Forall (λ l, Dom.fn_code (Dom.callback l) = Dom.OnCapture) (map partner ls).
Proof. apply Forall_forall. intros l Hl. apply list_elem_of_fmap in Hl.
  destruct Hl as (l0 & -> & _). reflexivity. Qed.

End Handlers.

(** ** Events: interactions inside and outside the overlay, and Escape *)

Section Interactions.
Import MxOverlay MxOverlayShape MxOverlayPage.
#[local] Existing Instance Dom.Listener_eq_dec.

Lemma run_timeouts_app doc a1 a2 p :
  run_timeouts doc (a1 ++ a2) p = run_timeouts doc a2 (run_timeouts doc a1 p).
Proof. revert p. induction a1 as [| a a1 IH]; intros p; simpl; auto. Qed.

(** Callbacks of [_onCaptureHtmlClick] whose [wasClickInside] is true end
    without a call. *)
Lemma run_checks_inside doc (cs : list nat) e rest answers p :
  (∀ c, c ∈ cs → c ∈ wasClickInside p) →
  timeouts p = map (λ c, HideIfOutside c e) cs ++ rest →
  length answers = length cs →
  run_timeouts doc answers p = mkPage (host p) (wasClickInside p) rest (uncaught p).
Proof.
  revert answers p. induction cs as [| c cs IH]; intros answers p Hin Hq Hlen.
  - destruct answers; [| discriminate]. simpl in *. rewrite <- Hq. symmetry.
    apply page_eta.
  - destruct answers as [| a answers]; [discriminate |]. cbn [run_timeouts].
    assert (run_timeout doc a p
            = mkPage (host p) (wasClickInside p)
                (map (λ c, HideIfOutside c e) cs ++ rest) (uncaught p)) as ->.
    { unfold run_timeout. rewrite Hq. cbn [map app].
      rewrite bool_decide_eq_true_2; [reflexivity |].
      apply Hin, elem_of_cons. auto. }
    rewrite (IH answers _); cbn [host wasClickInside timeouts uncaught]; auto.
    intros c' Hc'. apply Hin, elem_of_cons. auto.
Qed.

Lemma run_resets doc (cs : list nat) answers p :
  timeouts p = map ResetWasClickInside cs →
  length answers = length cs →
  let p' := run_timeouts doc answers p in
  host p' = host p ∧ uncaught p' = uncaught p ∧ timeouts p' = [] ∧
  (∀ x, x ∈ wasClickInside p' ↔ x ∈ wasClickInside p ∧ x ∉ cs).
Proof.
  revert answers p. induction cs as [| c cs IH]; intros answers p Hq Hlen; cbv zeta.
  - destruct answers; [| discriminate]. simpl in *.
    split; [reflexivity |]. split; [reflexivity |]. split; [exact Hq |].
    intros x. split; [| tauto].
    intros H. split; [exact H | apply not_elem_of_nil].
  - destruct answers as [| a answers]; [discriminate |]. cbn [run_timeouts].
    assert (run_timeout doc a p
            = mkPage (host p) (wasClickInside p ∖ {[c]})
                (map ResetWasClickInside cs) (uncaught p)) as ->
      by (unfold run_timeout; rewrite Hq; reflexivity).
    destruct (IH answers (mkPage (host p) (wasClickInside p ∖ {[c]})
                            (map ResetWasClickInside cs) (uncaught p)))
      as (H1 & H2 & H3 & H4); [reflexivity | auto |].
    cbv zeta in *. cbn [host wasClickInside timeouts uncaught] in *.
    split; [exact H1 |]. split; [exact H2 |]. split; [exact H3 |].
    intros x. rewrite H4, elem_of_difference, elem_of_singleton, elem_of_cons.
    tauto.
Qed.

Lemma isElementAllowed_hide a s parent e :
  isElementAllowed (hide a s) parent e = isElementAllowed s parent e.
Proof. destruct a; reflexivity. Qed.

(** Callbacks of [_onCaptureHtmlClick] whose [wasClickInside] is false
    follow [isElementAllowed]. *)
Lemma run_checks_outside doc (cs : list nat) e answers p :
  wasClickInside p = ∅ →
  timeouts p = map (λ c, HideIfOutside c e) cs →
  length answers = length cs →
  let p' := run_timeouts doc answers p in
  timeouts p' = [] ∧ wasClickInside p' = ∅ ∧
  match isElementAllowed (host p) (this_element doc) e with
  | Normal false =>
      host p' = fold_left (λ h a, hide a h) answers (host p) ∧
      uncaught p' = uncaught p
  | Normal true => host p' = host p ∧ uncaught p' = uncaught p
  | Throw err => host p' = host p ∧ uncaught p' = uncaught p ++ repeat err (length cs)
  end.
Proof.
  revert answers p. induction cs as [| c cs IH]; intros answers p Hw Hq Hlen;
    cbv zeta.
  - destruct answers; [| discriminate]. simpl in *.
    split; [exact Hq |]. split; [exact Hw |].
    destruct (isElementAllowed _ _ _) as [[|] | err]; rewrite ?app_nil_r; auto.
  - destruct answers as [| a answers]; [discriminate |]. cbn [run_timeouts].
    destruct (isElementAllowed (host p) (this_element doc) e) as [[|] | err] eqn:Hr.
    + assert (run_timeout doc a p
              = mkPage (host p) (wasClickInside p)
                  (map (λ c, HideIfOutside c e) cs) (uncaught p)) as ->.
      { unfold run_timeout. rewrite Hq. cbn [map].
        rewrite bool_decide_eq_false_2 by (rewrite Hw; apply not_elem_of_empty).
        rewrite Hr. reflexivity. }
      destruct (IH answers (mkPage (host p) (wasClickInside p)
                              (map (λ c, HideIfOutside c e) cs) (uncaught p)))
        as (H1 & H2 & H3); auto.
      cbv zeta in *. cbn [host wasClickInside timeouts uncaught] in *.
      rewrite Hr in H3. auto.
    + assert (run_timeout doc a p
              = mkPage (hide a (host p)) (wasClickInside p)
                  (map (λ c, HideIfOutside c e) cs) (uncaught p)) as ->.
      { unfold run_timeout. rewrite Hq. cbn [map].
        rewrite bool_decide_eq_false_2 by (rewrite Hw; apply not_elem_of_empty).
        rewrite Hr. reflexivity. }
      destruct (IH answers (mkPage (hide a (host p)) (wasClickInside p)
                              (map (λ c, HideIfOutside c e) cs) (uncaught p)))
        as (H1 & H2 & H3); auto.
      cbv zeta in *. cbn [host wasClickInside timeouts uncaught] in *.
      rewrite isElementAllowed_hide, Hr in H3. auto.
    + assert (run_timeout doc a p
              = mkPage (host p) (wasClickInside p)
                  (map (λ c, HideIfOutside c e) cs) (uncaught p ++ [err])) as ->.
      { unfold run_timeout. rewrite Hq. cbn [map].
        rewrite bool_decide_eq_false_2 by (rewrite Hw; apply not_elem_of_empty).
        rewrite Hr. reflexivity. }
      destruct (IH answers (mkPage (host p) (wasClickInside p)
                              (map (λ c, HideIfOutside c e) cs) (uncaught p ++ [err])))
        as (H1 & H2 & H3); auto.
      cbv zeta in *. cbn [host wasClickInside timeouts uncaught] in *.
      rewrite Hr in H3. destruct H3 as [H3 H4].
      rewrite H4, <- app_assoc. auto.
Qed.

Lemma hides_close (answers : list bool) s :
  Forall (λ a, a = false) answers →
  (answers = [] → opened s = false ∧ hidden s = true) →
  opened (fold_left (λ h a, hide a h) answers s) = false ∧
  hidden (fold_left (λ h a, hide a h) answers s) = true.
Proof.
  intros Hall. revert s. induction Hall as [| a answers -> _ IH]; intros s Hs.
  - simpl. auto.
  - cbn [fold_left]. apply IH. intros _. split; reflexivity.
Qed.

(** The page after the listeners of an event without a key have run: those
    on the root element, then those on [this], then those on the
    document. *)
Lemma fold_pointer ev cancel bound (checks sets escs : list Dom.Listener) p :
  Forall (inside_listener bound) checks →
  Forall (inside_listener bound) sets →
  Forall (escape_listener bound) escs →
  key ev = None →
  let p' := fold_left (call_listener ev cancel) (map partner checks ++ sets ++ escs) p in
  host p' = host p ∧ uncaught p' = uncaught p ∧
  timeouts p' =
    timeouts p
    ++ map (λ c, HideIfOutside c (event ev))
         (map (λ l, Dom.fn_id (Dom.callback l)) checks)
    ++ map ResetWasClickInside (map (λ l, Dom.fn_id (Dom.callback l)) sets) ∧
  (∀ c, c ∈ wasClickInside p' ↔
        c ∈ wasClickInside p ∨ c ∈ map (λ l, Dom.fn_id (Dom.callback l)) sets).
Proof.
  intros Hchecks Hsets Hescs Hkey. cbv zeta. rewrite !fold_left_app.
  rewrite (fold_onCapture ev cancel (map partner checks) p (partner_code checks)).
  set (p1 := mkPage (host p) (wasClickInside p)
               (timeouts p ++ map (λ l, HideIfOutside (scope_of (Dom.callback l)) (event ev))
                                (map partner checks)) (uncaught p)).
  destruct (fold_preventClose ev cancel sets p1 (inside_code _ _ Hsets))
    as (Hh & Hu & Ht & Hc).
  cbv zeta in *.
  rewrite fold_escKey_other;
    [| eapply escape_code; exact Hescs | rewrite Hkey; discriminate].
  split; [rewrite Hh; reflexivity |]. split; [rewrite Hu; reflexivity |].
  split.
  { rewrite Ht. unfold p1. cbn [host wasClickInside timeouts uncaught].
    rewrite <- app_assoc, !map_map.
    assert (map (λ l, ResetWasClickInside (scope_of (Dom.callback l))) sets
            = map (λ l, ResetWasClickInside (Dom.fn_id (Dom.callback l))) sets) as ->.
    { apply map_ext_in. intros l Hl. rewrite Forall_forall in Hsets.
      apply list_elem_of_In in Hl.
      destruct (Hsets l Hl) as (_ & _ & Hcode & _).
      unfold scope_of. rewrite Hcode. reflexivity. }
    reflexivity. }
  intros c. rewrite Hc. unfold p1. cbn [wasClickInside].
  rewrite list_elem_of_fmap. split.
  - intros [H | (l & Hl & Heq)]; [auto |]. right. exists l. split; [| exact Hl].
    rewrite Forall_forall in Hsets. destruct (Hsets l Hl) as (_ & _ & Hcode & _).
    unfold scope_of in Heq. rewrite Hcode in Heq. auto.
  - intros [H | (l & Heq & Hl)]; [auto |]. right. exists l. split; [exact Hl |].
    rewrite Forall_forall in Hsets. destruct (Hsets l Hl) as (_ & _ & Hcode & _).
    unfold scope_of. rewrite Hcode. auto.
Qed.

Lemma Forall_if {A} (P : A → Prop) (b : bool) (ls : list A) :
  Forall P ls → Forall P (if b then ls else []).
Proof. destruct b; [auto | constructor]. Qed.

(** The page after an event without a key was dispatched. *)
Lemma dispatch_pointer doc ev cancel p :
  listeners_shape (host p) → key ev = None →
  let inside := listeners_for (event_type ev) true (this_listeners (host p)) in
  let checks := if on_path (documentElement doc) (event ev) then inside else [] in
  let sets := if on_path (this_element doc) (event ev) then inside else [] in
  let p' := dispatch doc ev cancel p in
  host p' = host p ∧ uncaught p' = uncaught p ∧
  timeouts p' =
    timeouts p
    ++ map (λ c, HideIfOutside c (event ev))
         (map (λ l, Dom.fn_id (Dom.callback l)) checks)
    ++ map ResetWasClickInside (map (λ l, Dom.fn_id (Dom.callback l)) sets) ∧
  (∀ c, c ∈ wasClickInside p' ↔
        c ∈ wasClickInside p ∨ c ∈ map (λ l, Dom.fn_id (Dom.callback l)) sets).
Proof.
  intros Hshape Hkey. cbv zeta.
  destruct (invoked_shape doc ev (host p) Hshape) as (Hinv & Hin & Hesc).
  cbv zeta in *. unfold dispatch. rewrite Hinv.
  apply (fold_pointer ev cancel (next_fn (host p))); auto using Forall_if.
Qed.

End Interactions.

Section InteractionTheorems.
Import MxOverlay MxOverlayShape MxOverlayPage.
#[local] Existing Instance Dom.Listener_eq_dec.

(** X10. An interaction that passes through the overlay (its target is the
    overlay or lies inside it) never hides it: each deferred callback of
    [_onCaptureHtmlClick] finds its [wasClickInside] true and ends without
    calling [isElementAllowed] or [hide]; afterwards the instance is as
    before, no callback waits and no error was thrown. *)
Theorem interaction_inside_keeps_overlay doc ev cancel answers p :
  reachable (host p) →
  timeouts p = [] →
  key ev = None →
  on_path (this_element doc) (event ev) = true →
  length answers = length (timeouts (dispatch doc ev cancel p)) →
  let p' := run_timeouts doc answers (dispatch doc ev cancel p) in
  host p' = host p ∧ uncaught p' = uncaught p ∧ timeouts p' = [] ∧
  wasClickInside p' ⊆ wasClickInside p.
Proof.
  intros Hr Hq Hkey Hthis Hlen. cbv zeta.
  destruct (dispatch_pointer doc ev cancel p (reachable_shape _ Hr) Hkey)
    as (Hh & Hu & Ht & Hc).
  cbv zeta in *. rewrite Hthis, Hq in *. cbn [app] in Ht.
  set (p1 := dispatch doc ev cancel p) in *. clearbody p1.
  set (inside := listeners_for (event_type ev) true (this_listeners (host p))) in *.
  set (checks := if on_path (documentElement doc) (event ev) then inside else []) in *.
  set (cs := map (λ l, Dom.fn_id (Dom.callback l)) checks) in *.
  set (ss := map (λ l, Dom.fn_id (Dom.callback l)) inside) in *.
  rewrite Ht, length_app, !length_map in Hlen.
  rewrite <- (take_drop (length checks) answers), run_timeouts_app.
  assert (length cs = length checks) as Hcs by apply length_map.
  assert (length (take (length checks) answers) = length cs) as Hlen1
    by (rewrite length_take; lia).
  assert (length (drop (length checks) answers) = length ss) as Hlen2
    by (rewrite length_drop; lia).
  rewrite (run_checks_inside doc cs (event ev) (map ResetWasClickInside ss) _ p1);
    try assumption.
  - destruct (run_resets doc ss (drop (length checks) answers)
                (mkPage (host p1) (wasClickInside p1) (map ResetWasClickInside ss)
                   (uncaught p1))) as (H1 & H2 & H3 & H4);
      [reflexivity | exact Hlen2 |].
    cbv zeta in *. cbn [host wasClickInside timeouts uncaught] in *.
    split; [rewrite H1; exact Hh |]. split; [rewrite H2; exact Hu |].
    split; [exact H3 |].
    intros x Hx. apply H4 in Hx. destruct Hx as [Hx Hnot].
    apply Hc in Hx. destruct Hx as [Hx | Hx]; [exact Hx | contradiction].
  - intros c Hcin. apply Hc. right. unfold cs, checks in Hcin.
    destruct (on_path (documentElement doc) (event ev)); [exact Hcin |].
    apply elem_of_nil in Hcin. destruct Hcin.
Qed.

Lemma interaction_inside_keeps_overlay_witness :
  let root := Dom.mkNode 0 "" None in
  let html := Dom.mkNode 1 "" (Some root) in
  let overlay := Dom.mkNode 2 "overlay" (Some html) in
  let item := Dom.mkNode 3 "item" (Some overlay) in
  let doc := mkDocument overlay html root in
  let p := page_of (run [Show false; Tick] (init "" true)) in
  let click := mkDispatch "click" (Dom.mkEvent (Some item) None) None true in
  length (timeouts (dispatch doc click (λ _, false) p)) = 2 ∧
  opened (host (run_timeouts doc [false; false] (dispatch doc click (λ _, false) p)))
    = true.
Proof.
  intros root html overlay item doc p click.
  assert (length (timeouts (dispatch doc click (λ _, false) p)) = 2) as Hlen
    by (vm_compute; reflexivity).
  split; [exact Hlen |].
  assert (reachable (host p)) as Hr
    by (exists "", true, [Show false; Tick]; reflexivity).
  destruct (interaction_inside_keeps_overlay doc click (λ _, false) [false; false] p
              Hr eq_refl eq_refl) as (Hh & _).
  - vm_compute. reflexivity.
  - rewrite Hlen. reflexivity.
  - rewrite Hh. vm_compute. reflexivity.
Defined.

(** The page after an event that does not pass through the overlay. *)
Lemma dispatch_outside doc ev cancel p :
  reachable (host p) → timeouts p = [] → wasClickInside p = ∅ → key ev = None →
  on_path (this_element doc) (event ev) = false →
  let p1 := dispatch doc ev cancel p in
  ∃ cs : list nat,
    host p1 = host p ∧ uncaught p1 = uncaught p ∧ wasClickInside p1 = ∅ ∧
    timeouts p1 = map (λ c, HideIfOutside c (event ev)) cs ∧
    (on_path (documentElement doc) (event ev) = true →
     listeners_for (event_type ev) true (documentElement_listeners (host p)) ≠ [] →
     cs ≠ []).
Proof.
  intros Hr Hq Hw Hkey Hthis. cbv zeta.
  pose proof (reachable_shape _ Hr) as Hshape.
  destruct (dispatch_pointer doc ev cancel p Hshape Hkey) as (Hh & Hu & Ht & Hc).
  cbv zeta in *. rewrite Hthis, Hq in *. cbn [app map] in Ht.
  rewrite app_nil_r in Ht.
  eexists. split; [exact Hh |]. split; [exact Hu |]. split; [| split; [exact Ht |]].
  - apply set_eq. intros c. rewrite Hc, Hw. cbn [map].
    rewrite elem_of_nil. tauto.
  - intros Hde Hne. rewrite Hde. intros Hnil. apply Hne.
    destruct Hshape as (Hall & -> & _).
    rewrite (listeners_for_partner _ _ _ Hall).
    apply map_eq_nil in Hnil. rewrite Hnil. reflexivity.
Qed.

(** X11. An interaction elsewhere in the document hides the overlay when
    [isElementAllowed] answers false for it: with a listener for the event
    type registered, nothing waiting and no [hide] cancelled, the overlay is
    closed once the deferred callbacks have run. *)
Theorem interaction_outside_hides_overlay doc ev cancel answers p :
  reachable (host p) →
  timeouts p = [] →
  wasClickInside p = ∅ →
  key ev = None →
  on_path (this_element doc) (event ev) = false →
  on_path (documentElement doc) (event ev) = true →
  listeners_for (event_type ev) true (documentElement_listeners (host p)) ≠ [] →
  isElementAllowed (host p) (this_element doc) (event ev) = Normal false →
  length answers = length (timeouts (dispatch doc ev cancel p)) →
  Forall (λ a, a = false) answers →
  let p' := run_timeouts doc answers (dispatch doc ev cancel p) in
  opened (host p') = false ∧ hidden (host p') = true ∧
  timeouts p' = [] ∧ uncaught p' = uncaught p.
Proof.
  intros Hr Hq Hw Hkey Hthis Hde Hne Hallow Hlen Hanswers. cbv zeta.
  destruct (dispatch_outside doc ev cancel p Hr Hq Hw Hkey Hthis)
    as (cs & Hh & Hu & Hw1 & Ht & Hcs).
  cbv zeta in *. specialize (Hcs Hde Hne).
  set (p1 := dispatch doc ev cancel p) in *. clearbody p1.
  rewrite Ht, length_map in Hlen.
  destruct (run_checks_outside doc cs (event ev) answers p1 Hw1 Ht Hlen)
    as (Hq' & _ & Hres).
  cbv zeta in *. rewrite Hh, Hallow in Hres. destruct Hres as [-> ->].
  destruct (hides_close answers (host p) Hanswers) as [Ho Hhid].
  - intros ->. destruct cs; [contradiction | discriminate].
  - auto.
Qed.

Lemma interaction_outside_hides_overlay_witness :
  let root := Dom.mkNode 0 "" None in
  let html := Dom.mkNode 1 "" (Some root) in
  let overlay := Dom.mkNode 2 "overlay" (Some html) in
  let button := Dom.mkNode 3 "menu-trigger" (Some html) in
  let doc := mkDocument overlay html root in
  let p := page_of (run [Show false; Tick] (init "" true)) in
  let click := mkDispatch "click" (Dom.mkEvent (Some button) None) None true in
  opened (host p) = true ∧
  opened (host (run_timeouts doc [false] (dispatch doc click (λ _, false) p)))
    = false.
Proof.
  intros root html overlay button doc p click.
  split; [vm_compute; reflexivity |].
  assert (reachable (host p)) as Hr
    by (exists "", true, [Show false; Tick]; reflexivity).
  apply (interaction_outside_hides_overlay doc click (λ _, false) [false] p Hr);
    try (vm_compute; reflexivity).
  - vm_compute. discriminate.
  - repeat constructor.
Defined.

(** X12. An interaction elsewhere in the document leaves the overlay as it
    is when [isElementAllowed] answers true for it (an element on its path
    is on the ignore list) and also when [isElementAllowed] throws (some
    identifier is registered and the event has no [path]): in that case
    every deferred callback ends with the error and [hide] is never
    reached. *)
Theorem interaction_outside_allowed_or_failing doc ev cancel answers p :
  reachable (host p) →
  timeouts p = [] →
  wasClickInside p = ∅ →
  key ev = None →
  on_path (this_element doc) (event ev) = false →
  length answers = length (timeouts (dispatch doc ev cancel p)) →
  let p' := run_timeouts doc answers (dispatch doc ev cancel p) in
  (isElementAllowed (host p) (this_element doc) (event ev) = Normal true →
   host p' = host p ∧ uncaught p' = uncaught p ∧ timeouts p' = []) ∧
  (∀ err, isElementAllowed (host p) (this_element doc) (event ev) = Throw err →
   host p' = host p ∧ timeouts p' = [] ∧
   uncaught p' = uncaught p ++ repeat err (length answers)).
Proof.
  intros Hr Hq Hw Hkey Hthis Hlen. cbv zeta.
  destruct (dispatch_outside doc ev cancel p Hr Hq Hw Hkey Hthis)
    as (cs & Hh & Hu & Hw1 & Ht & _).
  cbv zeta in *.
  set (p1 := dispatch doc ev cancel p) in *. clearbody p1.
  rewrite Ht, length_map in Hlen.
  destruct (run_checks_outside doc cs (event ev) answers p1 Hw1 Ht Hlen)
    as (Hq' & _ & Hres).
  cbv zeta in *. rewrite Hh in Hres. split.
  - intros Hallow. rewrite Hallow in Hres. destruct Hres as [-> ->]. auto.
  - intros err Hallow. rewrite Hallow in Hres. destruct Hres as [-> ->].
    rewrite Hu, Hlen. auto.
Qed.

Lemma interaction_outside_allowed_or_failing_witness :
  let root := Dom.mkNode 0 "" None in
  let html := Dom.mkNode 1 "" (Some root) in
  let overlay := Dom.mkNode 2 "overlay" (Some html) in
  let button := Dom.mkNode 3 "menu-trigger" (Some html) in
  let doc := mkDocument overlay html root in
  let p := page_of (overlayToIgnore ["menu-trigger"]
                      (run [Show false; Tick] (init "" true))) in
  let click path := mkDispatch "click" (Dom.mkEvent (Some button) path) None true in
  let after path :=
    run_timeouts doc [false] (dispatch doc (click path) (λ _, false) p) in
  (opened (host (after (Some [button; html; root]))) = true ∧
   uncaught (after (Some [button; html; root])) = []) ∧
  (opened (host (after None)) = true ∧ uncaught (after None) = [TypeError]).
Proof.
  intros root html overlay button doc p click after.
  assert (reachable (host p)) as Hr
    by (exists "", true, [Show false; Tick; OverlayToIgnore ["menu-trigger"]];
        reflexivity).
  split.
  - destruct (interaction_outside_allowed_or_failing doc
                (click (Some [button; html; root])) (λ _, false) [false] p Hr)
      as [Hallowed _]; try (vm_compute; reflexivity).
    destruct Hallowed as (Hh & Hu & _); [vm_compute; reflexivity |].
    unfold after. rewrite Hh, Hu. split; vm_compute; reflexivity.
  - destruct (interaction_outside_allowed_or_failing doc (click None) (λ _, false)
                [false] p Hr) as [_ Hfails]; try (vm_compute; reflexivity).
    destruct (Hfails TypeError) as (Hh & _ & Hu); [vm_compute; reflexivity |].
    unfold after. rewrite Hh, Hu. split; vm_compute; reflexivity.
Defined.

End InteractionTheorems.

Section EscapeAndAlwaysOpen.
Import MxOverlay MxOverlayShape MxOverlayPage.
#[local] Existing Instance Dom.Listener_eq_dec.

Lemma reachable_run acts s : reachable s → reachable (run acts s).
Proof.
  intros (z & h & acts0 & ->). exists z, h, (acts0 ++ acts).
  unfold run. rewrite fold_left_app. reflexivity.
Qed.

Lemma show_timers s :
  timers (show false s) = timers s ++ [negb (alwaysOpen s)] ∧
  opened (show false s) = true.
Proof.
  unfold show, handleFeatures, handleZIndex. cbn [negb].
  change (alwaysOpen (showItem (dispatchEvent "mx-overlay-before-shown" s)))
    with (alwaysOpen s).
  destruct (negb (alwaysOpen s)); [destruct (lt _ _) |]; split; reflexivity.
Qed.

Lemma set_timers_opened q x :
  opened (set_timers q x) = opened x ∧ alwaysOpen (set_timers q x) = alwaysOpen x.
Proof. split; reflexivity. Qed.

Lemma features_callback_alwaysOpen b s :
  alwaysOpen (features_callback b s) = alwaysOpen s.
Proof. destruct b; reflexivity. Qed.

(** The instance once [show] and its set-up callback have run. *)
Lemma armed_overlay s :
  alwaysOpen s = false → timers s = [] →
  let armed := tick (show false s) in
  armed = run [Show false; Tick] s ∧
  opened armed = true ∧
  document_listeners armed ≠ [].
Proof.
  intros Ha Hq. cbv zeta.
  destruct (show_timers s) as [Ht Ho]. rewrite Ha, Hq in Ht. cbn [negb app] in Ht.
  split; [reflexivity |].
  rewrite (tick_cons true [] (show false s) Ht).
  destruct (set_timers_frame [] (features_callback true (show false s)))
    as (_ & _ & _ & _ & -> & _).
  destruct (features_callback_true_fields (show false s))
    as (_ & _ & _ & _ & -> & _).
  split.
  - destruct (features_callback_visibility true (show false s)) as (Hv & _).
    rewrite (proj1 (set_timers_opened _ _)), Hv. exact Ho.
  - intros Hnil.
    pose proof (addEventListener_has "keyup"
                  (Dom.mkFn (next_fn (show false s)) Dom.EscKey) false
                  (document_listeners (show false s))) as Hin.
    rewrite Hnil in Hin. apply elem_of_nil in Hin. exact Hin.
Qed.

(** A [keyup] event invokes the listeners registered on the document and
    no other. *)
Lemma invoked_keyup doc e k s :
  listeners_shape s → on_path (document doc) e = true →
  invoked doc (mkDispatch "keyup" e k true) s = document_listeners s.
Proof.
  intros Hshape Hpath.
  destruct (invoked_shape doc (mkDispatch "keyup" e k true) s Hshape)
    as (-> & _ & _).
  destruct Hshape as (Hthis & _ & Hdoc & _).
  cbn [event_type event bubbles].
  assert (listeners_for "keyup" true (this_listeners s) = []) as ->.
  { apply filter_none. eapply Forall_impl; [exact Hthis |].
    intros l ([Hty | Hty] & _) [H _]; rewrite Hty in H; discriminate. }
  rewrite Hpath, orb_true_r.
  assert (listeners_for "keyup" false (document_listeners s) = document_listeners s)
    as ->.
  { apply filter_all. eapply Forall_impl; [exact Hdoc |].
    intros l (Hty & Hcap & _). auto. }
  destruct (on_path (documentElement doc) e), (on_path (this_element doc) e);
    reflexivity.
Qed.

(** X13. Escape closes the overlay.  After [show] (not cancelled,
    [alwaysOpen] false) and its set-up callback, a [keyup] event that
    reaches the document with key "Escape" leaves the overlay closed and
    hidden when no [hide] is cancelled; a [keyup] with any other key changes
    nothing at all. *)
Theorem escape_key_hides_overlay doc e cancel s :
  reachable s →
  alwaysOpen s = false →
  timers s = [] →
  on_path (document doc) e = true →
  let armed := tick (show false s) in
  let keyup k := mkDispatch "keyup" e k true in
  opened armed = true ∧
  ((∀ f, cancel f = false) →
   opened (host (dispatch doc (keyup (Some "Escape")) cancel (page_of armed))) = false ∧
   hidden (host (dispatch doc (keyup (Some "Escape")) cancel (page_of armed))) = true) ∧
  (∀ k, k ≠ Some "Escape" →
   dispatch doc (keyup k) cancel (page_of armed) = page_of armed).
Proof.
  intros Hr Ha Hq Hpath. cbv zeta.
  destruct (armed_overlay s Ha Hq) as (Harmed & Ho & Hne). cbv zeta in *.
  assert (listeners_shape (tick (show false s))) as Hshape
    by (rewrite Harmed; apply reachable_shape, reachable_run, Hr).
  set (armed := tick (show false s)) in *. clearbody armed.
  assert (Forall (λ l, Dom.fn_code (Dom.callback l) = Dom.EscKey)
            (document_listeners armed)) as Hesc
    by (destruct Hshape as (_ & _ & Hdoc & _); eapply escape_code; exact Hdoc).
  split; [exact Ho |]. split.
  - intros Hcancel. unfold dispatch. cbn [host page_of].
    rewrite (invoked_keyup doc e _ armed Hshape Hpath).
    destruct (fold_escKey_escape (mkDispatch "keyup" e (Some "Escape") true) cancel
                (document_listeners armed) (page_of armed) Hesc eq_refl Hcancel Hne)
      as (H1 & H2 & _).
    auto.
  - intros k Hk. unfold dispatch. cbn [host page_of].
    rewrite (invoked_keyup doc e _ armed Hshape Hpath).
    apply fold_escKey_other; [exact Hesc | exact Hk].
Qed.

Lemma escape_key_hides_overlay_witness :
  let root := Dom.mkNode 0 "" None in
  let html := Dom.mkNode 1 "" (Some root) in
  let overlay := Dom.mkNode 2 "overlay" (Some html) in
  let doc := mkDocument overlay html root in
  let e := Dom.mkEvent (Some html) None in
  let armed := tick (show false (init "" true)) in
  opened armed = true ∧
  opened (host (dispatch doc (mkDispatch "keyup" e (Some "Escape") true)
                  (λ _, false) (page_of armed))) = false.
Proof.
  intros root html overlay doc e armed.
  assert (reachable (init "" true)) as Hr by (exists "", true, []; reflexivity).
  destruct (escape_key_hides_overlay doc e (λ _, false) (init "" true) Hr
              eq_refl eq_refl) as (Ho & Hesc & _).
  - vm_compute. reflexivity.
  - split; [exact Ho |]. apply Hesc. reflexivity.
Defined.

Lemma always_open_step a s :
  a ≠ SetAlwaysOpen false →
  alwaysOpen s = true ∧ Forall (λ b, b = false) (timers s) ∧
    this_listeners s = [] ∧ documentElement_listeners s = [] ∧
    document_listeners s = [] →
  alwaysOpen (exec a s) = true ∧ Forall (λ b, b = false) (timers (exec a s)) ∧
    this_listeners (exec a s) = [] ∧ documentElement_listeners (exec a s) = [] ∧
    document_listeners (exec a s) = [].
Proof.
  intros Hne (Ha & Hq & Ht & Hde & Hd).
  destruct a as [c | c | ids | | | b | z]; cbn [exec].
  - destruct c; [auto |].
    destruct (show_timers s) as [Hts _]. rewrite Ha in Hts. cbn [negb] in Hts.
    rewrite Hts.
    assert (alwaysOpen (show false s) = alwaysOpen s ∧
            this_listeners (show false s) = this_listeners s ∧
            documentElement_listeners (show false s) = documentElement_listeners s ∧
            document_listeners (show false s) = document_listeners s)
      as (-> & -> & -> & ->).
    { unfold show, handleFeatures, handleZIndex. cbn [negb].
      destruct (negb _); [destruct (lt _ _) |]; repeat split. }
    repeat split; auto. apply Forall_app. split; [exact Hq | repeat constructor].
  - destruct c; [auto |].
    change (timers (hide false s)) with (timers s ++ [false]).
    repeat split; auto. apply Forall_app. split; [exact Hq | repeat constructor].
  - auto.
  - change (timers (disconnectedCallback s)) with (timers s ++ [false]).
    assert (alwaysOpen (disconnectedCallback s) = alwaysOpen s ∧
            this_listeners (disconnectedCallback s) = this_listeners s ∧
            documentElement_listeners (disconnectedCallback s)
              = documentElement_listeners s ∧
            document_listeners (disconnectedCallback s) = document_listeners s)
      as (-> & -> & -> & ->) by (repeat split).
    repeat split; auto. apply Forall_app. split; [exact Hq | repeat constructor].
  - destruct (timers s) as [| b q] eqn:Hts.
    + unfold tick. rewrite Hts. rewrite Hts. auto.
    + rewrite (tick_cons b q s Hts). inversion Hq as [| ? ? -> Hq']; subst.
      destruct (features_callback_false_fields s)
        as (_ & _ & _ & _ & Hd' & Ht' & Hde').
      rewrite (proj2 (set_timers_opened _ _)), features_callback_alwaysOpen.
      rewrite set_timers_timers.
      destruct (set_timers_frame q (features_callback false s))
        as (_ & _ & _ & _ & -> & -> & ->).
      rewrite Hd', Ht', Hde', Hd, Ht, Hde, !remove_from_nil. auto.
  - destruct b; [auto | contradiction].
  - auto.
Qed.

(** X14. An overlay that is [alwaysOpen] from the start and stays so never
    has a listener on any target, whatever is called on it and whichever
    timers run; no event then invokes any of its handlers. *)
Theorem always_open_overlay_has_no_listeners z h acts :
  Forall (λ a, a ≠ SetAlwaysOpen false) acts →
  let s := run acts (set_alwaysOpen true (init z h)) in
  alwaysOpen s = true ∧
  this_listeners s = [] ∧ documentElement_listeners s = [] ∧
  document_listeners s = [] ∧
  (∀ doc ev cancel p, host p = s → dispatch doc ev cancel p = p).
Proof.
  intros Hacts. cbv zeta.
  assert (alwaysOpen (run acts (set_alwaysOpen true (init z h))) = true ∧
          Forall (λ b, b = false) (timers (run acts (set_alwaysOpen true (init z h)))) ∧
          this_listeners (run acts (set_alwaysOpen true (init z h))) = [] ∧
          documentElement_listeners (run acts (set_alwaysOpen true (init z h))) = [] ∧
          document_listeners (run acts (set_alwaysOpen true (init z h))) = [])
    as (Ha & _ & Ht & Hde & Hd).
  { unfold run. induction acts as [| a acts IH] using rev_ind.
    - simpl. repeat split; constructor.
    - apply Forall_app in Hacts. destruct Hacts as [Hacts Ha].
      apply Forall_cons in Ha. destruct Ha as [Ha _].
      rewrite fold_left_app. cbn [fold_left].
      apply always_open_step; [exact Ha | apply IH, Hacts]. }
  repeat split; auto.
  intros doc ev cancel p Hp. unfold dispatch, invoked. rewrite Hp, Ht, Hde, Hd.
  unfold listeners_for. rewrite !filter_nil.
  destruct (on_path _ _), (on_path _ _), (on_path _ _), (_ || _), (_ || _), (_ || _);
    reflexivity.
Qed.

Lemma always_open_overlay_has_no_listeners_witness :
  let s := run [Show false; Tick; Show false; Tick; Hide true]
             (set_alwaysOpen true (init "" true)) in
  opened s = true ∧ this_listeners s = [] ∧ documentElement_listeners s = [] ∧
  document_listeners s = [].
Proof.
  cbv zeta.
  destruct (always_open_overlay_has_no_listeners "" true
              [Show false; Tick; Show false; Tick; Hide true])
    as (_ & Ht & Hde & Hd & _).
  - repeat constructor; discriminate.
  - split; [vm_compute; reflexivity | auto].
Defined.

End EscapeAndAlwaysOpen.

Section Teardown.
Import MxOverlay MxOverlayShape.
#[local] Existing Instance Dom.Listener_eq_dec.
#[local] Existing Instance Dom.Fn_eq_dec.

Lemma filter_iff_in {A} (P Q : A → Prop) `{∀ x, Decision (P x)}
    `{∀ x, Decision (Q x)} (ls : list A) :
  Forall (λ x, P x ↔ Q x) ls → filter P ls = filter Q ls.
Proof.
  induction 1 as [| x ls Hx _ IH]; [reflexivity |].
  rewrite !filter_cons, IH.
  destruct (decide (P x)) as [Hp | Hp].
  - rewrite decide_True by (apply Hx, Hp). reflexivity.
  - rewrite decide_False by (intros Hq; apply Hp, Hx, Hq). reflexivity.
Qed.

(** Removing the two listeners of a handler is removing every listener of
    that handler, on a target where all listeners are for [ty1] or [ty2]
    with capture flag [cap]. *)
Lemma remove_both_types ty1 ty2 cap cb (ls : list Dom.Listener) :
  Forall (λ l, (Dom.type l = ty1 ∨ Dom.type l = ty2) ∧ Dom.capture l = cap) ls →
  Dom.removeEventListener ty2 cb cap (Dom.removeEventListener ty1 cb cap ls)
  = filter (λ l, Some (Dom.callback l) ≠ cb) ls.
Proof.
  intros Hall. destruct cb as [f |]; simpl.
  - rewrite list_filter_filter. apply filter_iff_in.
    eapply Forall_impl; [exact Hall |].
    intros [ty g c] (Hty & Hcap). simpl in *. subst c. split.
    + intros [H2 H1] [= ->]. destruct Hty as [-> | ->]; [apply H1 | apply H2];
        reflexivity.
    + intros Hne. split; intros [= _ Hg]; apply Hne; rewrite Hg; reflexivity.
  - symmetry. apply filter_all. apply Forall_forall. intros l _. discriminate.
Qed.

Lemma remove_one_type ty cap cb (ls : list Dom.Listener) :
  Forall (λ l, Dom.type l = ty ∧ Dom.capture l = cap) ls →
  Dom.removeEventListener ty cb cap ls
  = filter (λ l, Some (Dom.callback l) ≠ cb) ls.
Proof.
  intros Hall. destruct cb as [f |]; simpl.
  - apply filter_iff_in. eapply Forall_impl; [exact Hall |].
    intros [ty' g c] (Hty & Hcap). simpl in *. subst. split.
    + intros H [= ->]. apply H. reflexivity.
    + intros Hne [= Hg]. apply Hne. rewrite Hg. reflexivity.
  - symmetry. apply filter_all. apply Forall_forall. intros l _. discriminate.
Qed.

(** X15. The tear-down callback removes from each target exactly the
    listeners whose callback is the handler the field holds at that moment
    (for both event types at once) and leaves every other listener
    registered. *)
Theorem teardown_removes_current_handlers_only s :
  reachable s →
  let s' := features_callback false s in
  this_listeners s' =
    filter (λ l, Some (Dom.callback l) ≠ _preventCloseOutsideClick s)
      (this_listeners s) ∧
  documentElement_listeners s' =
    filter (λ l, Some (Dom.callback l) ≠ _onCaptureHtmlClick s)
      (documentElement_listeners s) ∧
  document_listeners s' =
    filter (λ l, Some (Dom.callback l) ≠ _escKeyHandler s) (document_listeners s).
Proof.
  intros Hr. destruct (reachable_shape s Hr) as (Hthis & Hde & Hdoc & _).
  destruct (features_callback_false_fields s) as (_ & _ & _ & _ & Hd & Ht & Hdel).
  cbv zeta in *. rewrite Hd, Ht, Hdel. split; [| split].
  - apply remove_both_types. eapply Forall_impl; [exact Hthis |].
    intros l (Hty & Hcap & _). auto.
  - apply remove_both_types. rewrite Hde. apply Forall_forall. intros l Hl.
    apply list_elem_of_fmap in Hl. destruct Hl as (l0 & -> & Hl0).
    rewrite Forall_forall in Hthis. destruct (Hthis l0 Hl0) as (Hty & _).
    simpl. auto.
  - apply remove_one_type. eapply Forall_impl; [exact Hdoc |].
    intros l (Hty & Hcap & _). auto.
Qed.

Lemma teardown_removes_current_handlers_only_witness :
  let s := run [Show false; Tick; Show false; Tick] (init "" true) in
  length (this_listeners s) = 4 ∧
  length (this_listeners (features_callback false s)) = 2 ∧
  length (document_listeners (features_callback false s)) = 1.
Proof.
  cbv zeta.
  assert (reachable (run [Show false; Tick; Show false; Tick] (init "" true)))
    as Hr by (exists "", true, [Show false; Tick; Show false; Tick]; reflexivity).
  destruct (teardown_removes_current_handlers_only _ Hr) as (Ht & _ & Hd).
  cbv zeta in *. rewrite Ht, Hd. vm_compute. repeat split.
Defined.

End Teardown.

(** ** The unified revision: the flag and the listener lists *)

Section ActionEventsMore.
Import MxOverlayActionEvents.

(** X16. In the revision that keeps [_listenersAttached], the flag tells in
    every reachable state what the two outside-interaction lists hold: when
    it is set, exactly the [mousedown], [touchstart] and [scroll] listeners
    of the two current handlers, in that order; when it is clear, nothing.
    The lists never hold listeners of earlier handlers. *)
Theorem listenersAttached_mirrors_the_listeners s :
  reachable s →
  if _listenersAttached s then
    ∃ f g, _preventCloseOnOutsideEvent s = Some f ∧
           _onCaptureOverlayActionEvent s = Some g ∧
           this_listeners s = action_listeners f ∧
           documentElement_listeners s = action_listeners g
  else this_listeners s = [] ∧ documentElement_listeners s = [].
Proof. apply reachable_inv. Qed.

Lemma listenersAttached_mirrors_the_listeners_witness :
  let s := run [Show false; Tick; Show false; Tick] (init "" true) in
  _listenersAttached s = true ∧ length (this_listeners s) = 3 ∧
  length (documentElement_listeners s) = 3.
Proof.
  cbv zeta.
  assert (reachable (run [Show false; Tick; Show false; Tick] (init "" true)))
    as Hr by (exists "", true, [Show false; Tick; Show false; Tick]; reflexivity).
  pose proof (listenersAttached_mirrors_the_listeners _ Hr) as H.
  assert (_listenersAttached
            (run [Show false; Tick; Show false; Tick] (init "" true)) = true)
    as Hflag by (vm_compute; reflexivity).
  rewrite Hflag in H. destruct H as (f & g & _ & _ & -> & ->).
  split; [exact Hflag |]. split; reflexivity.
Defined.

End ActionEventsMore.
